(** * go-fil-markets: piece preparation pipeline and storage client façade

    A shallow embedding of

    - package [pieceio] (piece commitment in streaming and disk-buffered mode),
    - package [storageimpl] (the storage client: [GetAsk], [ProposeStorageDeal],
      the connection registry behind [clientDealEnvironment]),

    and the properties the design document states about them.

    Conventions.  A Go [error] value is an [option error] ([None] is [nil]).
    A Go function with several results returns a tuple in the same order.
    Calls into libraries and into collaborators that are interfaces in the
    source (archive encoder, commitment function, file store, network, chain
    node, state machine engine) are taken as parameters: a record per
    interface, a function per method. *)

From Stdlib Require Import ZArith Lia.
From stdpp Require Import base option list gmap strings.

Local Open Scope Z_scope.
Local Open Scope string_scope.
Local Open Scope list_scope.

(** ** Errors and identifiers *)

(** [xerrors.New msg] and [xerrors.Errorf] without a [%w] verb carry a message
    only; [xerrors.Errorf "ctx: %w" err] wraps the cause. *)
Inductive error : Type :=
| errors_New (msg : string)
| errors_Wrap (msg : string) (cause : error).

(** The outcome [(v, err)] of a call into a collaborator, where the source
    uses [v] only when [err == nil]. *)
Inductive result (A : Type) : Type :=
| Ok (a : A)
| Err (e : error).
Arguments Ok {A} a.
Arguments Err {A} e.

(** [cid.Cid] wraps a string; [cid.Undef] is the zero value. *)
Definition Cid : Type := string.
Definition cid_Undef : Cid := EmptyString.

(** Integer conversions, with their wrap-around. *)
Definition uint64 (z : Z) : Z := z mod 2 ^ 64.
Definition int64 (z : Z) : Z := (z + 2 ^ 63) mod 2 ^ 64 - 2 ^ 63.

(** An [io.Reader], seen from its consumer: the bytes it delivers until EOF. *)
Definition Reader : Type := list Byte.byte.

(** ** Package pieceio *)
Module pieceio.

(** [filestore.Path] is a string type. *)
Definition Path : Type := string.

(** [abi.RegisteredSealProof] is an [int64] enumeration. *)
Definition RegisteredSealProof : Type := Z.

(** [abi.UnpaddedPieceSize] is a [uint64]. *)
Definition UnpaddedPieceSize : Type := Z.

Section Pipeline.

(** [ipld.Node], [blockstore.Blockstore] and [car.OnNewCarBlockFunc] are
    opaque to this package. *)
Context {Node Blockstore OnNewCarBlockFunc : Type}.

(** [PreparedCar]: [Dump w] is what it writes to [w] and the error it
    returns. *)
Record PreparedCar : Type := {
  Size : Z;
  Dump : list Byte.byte * option error
}.

(** [CarIO].  [WriteCar] is seen through the bytes it writes to its writer
    and the error it returns. *)
Record CarIO : Type := {
  WriteCar : Blockstore -> Cid -> Node -> list OnNewCarBlockFunc ->
             list Byte.byte * option error;
  PrepareCar : Blockstore -> Cid -> Node -> result PreparedCar;
  LoadCar : Blockstore -> Reader -> Cid * option error
}.

(** [os.Pipe] and the two ends it returns: whether the pipe could be
    opened, and what closing each end reports.  Reading the read end
    delivers what was written to the write end. *)
Record OSPipe : Type := {
  Pipe_err : option error;
  w_Close : option error;
  r_Close : option error
}.

(** Modelled from the spec: [filestore.File] (package filestore is not among
    the sources), the handle of the "temporary file-backed artifact" that is
    written "synchronously", whose length is then measured and which is
    rewound to the start.  A [FileHandle] is what the store hands out: the
    path, and what [Seek] and [Close] will report.  A [File] is a handle with
    the bytes written so far and the current offset; a new one is empty,
    [Size] is the number of bytes written, and reading delivers the bytes
    from the current offset on. *)
Record FileHandle : Type := {
  f_Path : Path;
  f_Seek_err : option error;
  f_Close_err : option error
}.

Record File : Type := {
  f_handle : FileHandle;
  f_data : list Byte.byte;
  f_offset : nat
}.

Definition File_new (h : FileHandle) : File :=
  {| f_handle := h; f_data := []; f_offset := 0%nat |}.

Definition File_Write (f : File) (bytes : list Byte.byte) : File :=
  {| f_handle := f_handle f;
     f_data := f_data f ++ bytes;
     f_offset := (f_offset f + length bytes)%nat |}.

Definition File_Size (f : File) : Z := Z.of_nat (length (f_data f)).

(** [f.Seek(0, io.SeekStart)]: the offset moves only when the call
    succeeds. *)
Definition File_Seek_start (f : File) : File * option error :=
  match f_Seek_err (f_handle f) with
  | Some e => (f, Some e)
  | None =>
      ({| f_handle := f_handle f; f_data := f_data f; f_offset := 0%nat |},
       None)
  end.

Definition File_Reader (f : File) : Reader := drop (f_offset f) (f_data f).

(** Modelled from the spec: [filestore.FileStore] ("creates a temporary
    file-backed artifact"; "the temporary artifact is deleted"). *)
Record FileStore : Type := {
  CreateTemp : result FileHandle;
  Delete : Path -> option error
}.

(** What the disk-buffered mode does to the store and to its file, in
    order. *)
Inductive StoreOp : Type :=
| OpCreateTemp (p : Path)
| OpWriteCar (p : Path)
| OpSeek (p : Path)
| OpCommit (p : Path)
| OpClose (p : Path)
| OpDelete (p : Path).

(** The statements of the streaming mode's main path, in order.  [StepGo] is
    the [go] statement that starts the producer, [StepWait] is
    [stop.Wait()]. *)
Inductive PipeStep : Type :=
| StepPrepare
| StepPipe
| StepGo
| StepCommit
| StepCloseRead
| StepWait.

Record pieceIO : Type := {
  carIO : CarIO;
  bs : Blockstore
}.

Record pieceIOWithStore : Type := {
  pio_pieceIO : pieceIO;
  store : FileStore
}.

Definition NewPieceIO (c : CarIO) (b : Blockstore) : pieceIO :=
  {| carIO := c; bs := b |}.

Definition NewPieceIOWithStore (c : CarIO) (s : FileStore) (b : Blockstore)
  : pieceIOWithStore :=
  {| pio_pieceIO := {| carIO := c; bs := b |}; store := s |}.

(** [padreader.New] and [ffiwrapper.GeneratePieceCIDFromFile]. *)
Variable padreader_New : Reader -> Z -> Reader * UnpaddedPieceSize.
Variable GeneratePieceCIDFromFile :
  RegisteredSealProof -> Reader -> UnpaddedPieceSize -> result Cid.

(** The package-level [GeneratePieceCommitment]. *)
Definition GeneratePieceCommitment
    (rt : RegisteredSealProof) (rd : Reader) (pieceSize : Z)
  : Cid * UnpaddedPieceSize * option error :=
  let '(paddedReader, paddedSize) := padreader_New rd pieceSize in
  match GeneratePieceCIDFromFile rt paddedReader paddedSize with
  | Err err => (cid_Undef, 0, Some err)
  | Ok commitment => (commitment, paddedSize, None)
  end.

Variable os : OSPipe.

(** The producer goroutine: what it puts into the pipe, and the [werr] it
    leaves behind when it is done. *)
Definition producer (preparedCar : PreparedCar)
  : list Byte.byte * option error :=
  let '(written, werr) := Dump preparedCar in
  let err := w_Close os in
  match werr, err with
  | None, Some e => (written, Some e)
  | _, _ => (written, werr)
  end.

(** [(pio *pieceIO) GeneratePieceCommitment], with the statements of the
    main path it executed. *)
Definition pieceIO_GeneratePieceCommitment
    (pio : pieceIO) (rt : RegisteredSealProof) (payloadCid : Cid)
    (selector : Node)
  : (Cid * UnpaddedPieceSize * option error) * list PipeStep :=
  match PrepareCar (carIO pio) (bs pio) payloadCid selector with
  | Err err => ((cid_Undef, 0, Some err), [StepPrepare])
  | Ok preparedCar =>
      let pieceSize := uint64 (Size preparedCar) in
      match Pipe_err os with
      | Some err => ((cid_Undef, 0, Some err), [StepPrepare; StepPipe])
      | None =>
          let '(r, werr) := producer preparedCar in
          let '(commitment, paddedSize, err) :=
            GeneratePieceCommitment rt r pieceSize in
          let closeErr := r_Close os in
          match err with
          | Some err =>
              ((cid_Undef, 0, Some err),
               [StepPrepare; StepPipe; StepGo; StepCommit; StepCloseRead])
          | None =>
              match closeErr with
              | Some closeErr =>
                  ((cid_Undef, 0, Some closeErr),
                   [StepPrepare; StepPipe; StepGo; StepCommit;
                    StepCloseRead])
              | None =>
                  match werr with
                  | Some werr =>
                      ((cid_Undef, 0, Some werr),
                       [StepPrepare; StepPipe; StepGo; StepCommit;
                        StepCloseRead; StepWait])
                  | None =>
                      ((commitment, paddedSize, None),
                       [StepPrepare; StepPipe; StepGo; StepCommit;
                        StepCloseRead; StepWait])
                  end
              end
          end
      end
  end.

(** The [cleanup] closure of the disk-buffered mode: [f.Close()], then
    [pio.store.Delete(f.Path())], both results dropped. *)
Definition cleanup (f : File) : list StoreOp :=
  [OpClose (f_Path (f_handle f)); OpDelete (f_Path (f_handle f))].

(** [(pio *pieceIOWithStore) GeneratePieceCommitmentToFile], with what it
    did to the store. *)
Definition GeneratePieceCommitmentToFile
    (pio : pieceIOWithStore) (rt : RegisteredSealProof) (payloadCid : Cid)
    (selector : Node) (userOnNewCarBlocks : list OnNewCarBlockFunc)
  : (Cid * Path * UnpaddedPieceSize * option error) * list StoreOp :=
  match CreateTemp (store pio) with
  | Err err => ((cid_Undef, EmptyString, 0, Some err), [])
  | Ok h =>
      let f := File_new h in
      let p := f_Path (f_handle f) in
      let '(bytes, err) :=
        WriteCar (carIO (pio_pieceIO pio)) (bs (pio_pieceIO pio))
                 payloadCid selector userOnNewCarBlocks in
      let f := File_Write f bytes in
      match err with
      | Some err =>
          ((cid_Undef, EmptyString, 0, Some err),
           [OpCreateTemp p; OpWriteCar p] ++ cleanup f)
      | None =>
          let pieceSize := uint64 (File_Size f) in
          let '(f, err) := File_Seek_start f in
          match err with
          | Some err =>
              ((cid_Undef, EmptyString, 0, Some err),
               [OpCreateTemp p; OpWriteCar p; OpSeek p] ++ cleanup f)
          | None =>
              let '(commitment, paddedSize, err) :=
                GeneratePieceCommitment rt (File_Reader f) pieceSize in
              match err with
              | Some err =>
                  ((cid_Undef, EmptyString, 0, Some err),
                   [OpCreateTemp p; OpWriteCar p; OpSeek p; OpCommit p]
                     ++ cleanup f)
              | None =>
                  ((commitment, f_Path (f_handle f), paddedSize, None),
                   [OpCreateTemp p; OpWriteCar p; OpSeek p; OpCommit p;
                    OpClose p])
              end
          end
      end
  end.

(** The prepared encoding agrees with the direct one: for this payload and
    selector, [Dump] writes the bytes [WriteCar] writes, and [Size] is their
    number. *)
Definition PrepareCar_matches_WriteCar
    (c : CarIO) (b : Blockstore) (payloadCid : Cid) (selector : Node)
    (userOnNewCarBlocks : list OnNewCarBlockFunc) : Prop :=
  match PrepareCar c b payloadCid selector with
  | Ok preparedCar =>
      let written :=
        (WriteCar c b payloadCid selector userOnNewCarBlocks).1 in
      (Dump preparedCar).1 = written
      ∧ Size preparedCar = Z.of_nat (length written)
  | Err _ => True
  end.

(** [(pio *pieceIO) ReadPiece]. *)
Definition ReadPiece (pio : pieceIO) (r : Reader) : Cid * option error :=
  LoadCar (carIO pio) (bs pio) r.

End Pipeline.

(** The file a store operation is about. *)
Definition StoreOp_path (op : StoreOp) : Path :=
  match op with
  | OpCreateTemp p | OpWriteCar p | OpSeek p | OpCommit p | OpClose p
  | OpDelete p => p
  end.

End pieceio.

(** ** Types of the chain libraries *)

(** [address.Address] and [peer.ID] wrap strings. *)
Definition Address : Type := string.
Definition PeerID : Type := string.

(** [abi.TokenAmount] is a big integer; [abi.NewTokenAmount] embeds an
    [int64]; [big.Zero()] is zero. *)
Definition TokenAmount : Type := Z.
Definition NewTokenAmount (t : Z) : TokenAmount := t.
Definition big_Zero : TokenAmount := 0.

Definition ChainEpoch : Type := Z.
Definition RegisteredProof : Type := Z.
Definition UnpaddedPieceSize : Type := Z.
Definition PaddedPieceSize : Type := Z.
Definition Signature : Type := list Byte.byte.

(** ** Package market *)
Module market.

Record DealProposal : Type := {
  PieceCID : Cid;
  PieceSize : PaddedPieceSize;
  Client : Address;
  Provider : Address;
  StartEpoch : ChainEpoch;
  EndEpoch : ChainEpoch;
  StoragePricePerEpoch : TokenAmount;
  ProviderCollateral : TokenAmount;
  ClientCollateral : TokenAmount
}.

Record ClientDealProposal : Type := {
  Proposal : DealProposal;
  ClientSignature : Signature
}.

End market.

(** ** Package storageimpl *)
Module storageimpl.

(** [storagemarket.StorageDealStatus] and [storagemarket.ClientEvent] are
    [uint64] enumerations that start at zero. *)
Definition StorageDealStatus : Type := Z.
Definition StorageDealUnknown : StorageDealStatus := 0.
Definition ClientEvent : Type := Z.
Definition ClientEventOpen : ClientEvent := 0.

(** The structs, with the fields the source reads or sets. *)
Record StorageProviderInfo : Type := {
  spi_Address : Address;
  spi_Worker : Address;
  spi_PeerID : PeerID
}.

Record DataRef : Type := {
  Root : Cid
}.

Record StorageAsk : Type := {
  Miner : Address
}.

(** [SignedStorageAsk.Ask] is a pointer that decoding may leave [nil]. *)
Record SignedStorageAsk : Type := {
  ssa_Ask : option StorageAsk;
  ssa_Signature : Signature
}.

Record AskRequest : Type := {
  req_Miner : Address
}.

Record AskResponse : Type := {
  resp_Ask : option SignedStorageAsk
}.

Record ClientDeal : Type := {
  cd_ProposalCid : Cid;
  cd_ClientDealProposal : market.ClientDealProposal;
  cd_State : StorageDealStatus;
  cd_Miner : PeerID;
  cd_MinerWorker : Address;
  cd_DataRef : option DataRef
}.

(** [storagemarket.ClientDeal{}]. *)
Definition ClientDeal_zero : ClientDeal :=
  {| cd_ClientDealProposal :=
       {| market.Proposal :=
            {| market.PieceCID := cid_Undef; market.PieceSize := 0;
               market.Client := EmptyString; market.Provider := EmptyString;
               market.StartEpoch := 0; market.EndEpoch := 0;
               market.StoragePricePerEpoch := 0;
               market.ProviderCollateral := 0;
               market.ClientCollateral := 0 |};
          market.ClientSignature := [] |};
     cd_ProposalCid := cid_Undef;
     cd_State := StorageDealUnknown;
     cd_Miner := EmptyString;
     cd_MinerWorker := EmptyString;
     cd_DataRef := None |}.

Definition set_State (st : StorageDealStatus) (d : ClientDeal) : ClientDeal :=
  {| cd_ClientDealProposal := cd_ClientDealProposal d;
     cd_ProposalCid := cd_ProposalCid d;
     cd_State := st;
     cd_Miner := cd_Miner d;
     cd_MinerWorker := cd_MinerWorker d;
     cd_DataRef := cd_DataRef d |}.

Record ProposeStorageDealResult : Type := {
  res_ProposalCid : Cid
}.

Record RetrievalPeer : Type := {
  rp_Address : Address;
  rp_ID : PeerID
}.

(** [ipld.Node], as far as the client looks at it. *)
Record IpldNode : Type := {
  nd_Cid : Cid
}.

(** The collaborators of the client, an interface each. *)
Record StorageAskStream : Type := {
  WriteAskRequest : AskRequest -> option error;
  ReadAskResponse : result AskResponse
}.

Record StorageDealStream : Type := {
  sds_id : Z;
  sds_Close : option error
}.

Record StorageMarketNetwork : Type := {
  NewAskStream : PeerID -> result StorageAskStream;
  NewDealStream : PeerID -> result StorageDealStream
}.

Record StorageClientNode : Type := {
  ValidateAskSignature : SignedStorageAsk -> option error;
  SignProposal :
    Address -> market.DealProposal -> result market.ClientDealProposal
}.

Record discovery_Local : Type := {
  AddPeer : Cid -> RetrievalPeer -> option error
}.

(** The calls that leave the client, as they are made. *)
Inductive Call : Type :=
| CallNewAskStream (p : PeerID)
| CallWriteAskRequest (req : AskRequest)
| CallReadAskResponse
| CallValidateAskSignature (ask : SignedStorageAsk)
| CallCommP (rt : RegisteredProof) (data : DataRef)
| CallSignProposal (addr : Address) (proposal : market.DealProposal)
| CallAsIpld (p : market.ClientDealProposal)
| CallBegin (id : Cid) (deal : ClientDeal)
| CallNewDealStream (p : PeerID)
| CallSend (id : Cid) (ev : ClientEvent)
| CallStreamClose (s : StorageDealStream)
| CallAddPeer (root : Cid) (peer : RetrievalPeer).

(** What a call changes: the records of the engine behind
    [c.statemachines], the registry [c.conns], and the calls made so far
    (oldest first). *)
Record World : Type := {
  statemachines : gmap Cid ClientDeal;
  conns : gmap Cid StorageDealStream;
  calls : list Call
}.

(** State passing over [World]. *)
Definition M (A : Type) : Type := World -> A * World.

#[export] Instance M_ret : MRet M := fun A a w => (a, w).
#[export] Instance M_bind : MBind M :=
  fun A B f m w => let '(a, w') := m w in f a w'.

Definition call (c : Call) : M unit :=
  fun w =>
    (tt, {| statemachines := statemachines w; conns := conns w;
            calls := calls w ++ [c] |}).

Definition get_conns : M (gmap Cid StorageDealStream) :=
  fun w => (conns w, w).

Definition set_conns (m : gmap Cid StorageDealStream) : M unit :=
  fun w =>
    (tt, {| statemachines := statemachines w; conns := m;
            calls := calls w |}).

Definition get_statemachines : M (gmap Cid ClientDeal) :=
  fun w => (statemachines w, w).

Definition set_statemachines (g : gmap Cid ClientDeal) : M unit :=
  fun w =>
    (tt, {| statemachines := g; conns := conns w; calls := calls w |}).

(** [c.conns[id] = s], under the lock.  Every access to [c.conns] in the
    source holds [c.connsLk], so the accesses are taken one at a time. *)
Definition conns_store (id : Cid) (s : StorageDealStream) : M unit :=
  m ← get_conns;
  set_conns (<[id := s]> m).

(** *** clientDealEnvironment *)

(** [(c *clientDealEnvironment) DealStream]. *)
Definition DealStream (proposalCid : Cid)
  : M (option StorageDealStream * option error) :=
  m ← get_conns;
  match m !! proposalCid with
  | Some s => mret (Some s, None)
  | None => mret (None, Some (errors_New "no connection to provider"))
  end.

(** [(c *clientDealEnvironment) CloseStream]. *)
Definition CloseStream (proposalCid : Cid) : M (option error) :=
  m ← get_conns;
  match m !! proposalCid with
  | None => mret None
  | Some s =>
      _ ← call (CallStreamClose s);
      let err := sds_Close s in
      _ ← set_conns (delete proposalCid m);
      mret err
  end.

(** *** The state machine engine *)

(** What an event handler may do: it is handed the environment of the
    client, whose methods on the registry are [DealStream] and
    [CloseStream]. *)
Inductive EnvProg : Type :=
| EnvDone
| EnvDealStream (id : Cid)
    (k : option StorageDealStream * option error -> EnvProg)
| EnvCloseStream (id : Cid) (k : option error -> EnvProg).

Fixpoint run_handler (p : EnvProg) : M unit :=
  match p with
  | EnvDone => mret tt
  | EnvDealStream id k => r ← DealStream id; run_handler (k r)
  | EnvCloseStream id k => e ← CloseStream id; run_handler (k e)
  end.

(** The operations on the registry, to run sequences of them: the store of
    [ProposeStorageDeal] and the two methods of the environment. *)
Inductive RegistryOp : Type :=
| RegStore (id : Cid) (s : StorageDealStream)
| RegDealStream (id : Cid)
| RegCloseStream (id : Cid).

Definition run_op (op : RegistryOp) : M unit :=
  match op with
  | RegStore id s => conns_store id s
  | RegDealStream id => _ ← DealStream id; mret tt
  | RegCloseStream id => _ ← CloseStream id; mret tt
  end.

Fixpoint run_ops (ops : list RegistryOp) : M unit :=
  match ops with
  | [] => mret tt
  | op :: ops => _ ← run_op op; run_ops ops
  end.

Definition stores_for (id : Cid) (op : RegistryOp) : bool :=
  match op with
  | RegStore id' _ => bool_decide (id' = id)
  | _ => false
  end.

(** An entry of the transition table: the state the event is enabled from,
    the state it leads to, and its handler. *)
Record EventDesc : Type := {
  ev_from : StorageDealStatus;
  ev_to : StorageDealStatus;
  ev_handler : ClientDeal -> EnvProg
}.

Section Engine.

(** [clientstates.ClientEvents], the table the engine is created with. *)
Variable ClientEvents : ClientEvent -> option EventDesc.

(** Modelled from the spec: [fsm.Group.Begin] (the engine is not among the
    sources): "registers a brand-new deal under id; fails if id already
    exists". *)
Definition Begin (id : Cid) (deal : ClientDeal) : M (option error) :=
  g ← get_statemachines;
  match g !! id with
  | Some _ => mret (Some (errors_New "already tracking identifier"))
  | None => _ ← set_statemachines (<[id := deal]> g); mret None
  end.

(** Modelled from the spec: [fsm.Group.Send] (the engine is not among the
    sources): "looks up the deal by id, checks the event is legal from the
    record's current state, executes the event's handler (which may call out
    to the shared environment), applies the resulting state mutation, and
    durably persists the updated record before returning.  Fails if id is
    unknown or the event is not legal from the current state." *)
Definition Send (id : Cid) (ev : ClientEvent) : M (option error) :=
  g ← get_statemachines;
  match g !! id with
  | None => mret (Some (errors_New "unknown identifier"))
  | Some d =>
      match ClientEvents ev with
      | None => mret (Some (errors_New "event not legal"))
      | Some desc =>
          if decide (ev_from desc = cd_State d) then
            _ ← run_handler (ev_handler desc d);
            _ ← set_statemachines (<[id := set_State (ev_to desc) d]> g);
            mret None
          else mret (Some (errors_New "event not legal"))
      end
  end.

(** Modelled from the spec: [fsm.Group.Get] followed by [StoredState.Get],
    and [fsm.Group.List] (the engine is not among the sources): "read-only
    snapshot access to one or all deal records". *)
Definition Group_Get (id : Cid) : M (result ClientDeal) :=
  g ← get_statemachines;
  match g !! id with
  | Some d => mret (Ok d)
  | None => mret (Err (errors_New "unknown identifier"))
  end.

Definition Group_List : M (result (list ClientDeal)) :=
  g ← get_statemachines;
  mret (Ok ((map_to_list g).*2)).

End Engine.

(** *** The client *)

(** How a call ends: it returns, or it dereferences a [nil] pointer. *)
Inductive outcome (A : Type) : Type :=
| Returns (a : A)
| Panics.
Arguments Returns {A} a.
Arguments Panics {A}.

Section ClientOps.

(** [pieceio.PieceIO] is handed on to [clientutils.CommP] only. *)
Context {PieceIO : Type}.

(** The fields of [Client] that are set once, in [NewClient]. *)
Record Client : Type := {
  net : StorageMarketNetwork;
  pio : PieceIO;
  discovery : discovery_Local;
  node : StorageClientNode
}.

Variable ClientEvents : ClientEvent -> option EventDesc.

(** [clientutils.CommP], [abi.UnpaddedPieceSize.Padded] and
    [cborutil.AsIpld]. *)
Variable CommP :
  PieceIO -> RegisteredProof -> DataRef ->
  Cid * UnpaddedPieceSize * option error.
Variable Padded : UnpaddedPieceSize -> PaddedPieceSize.
Variable AsIpld : market.ClientDealProposal -> result IpldNode.

(** [(c *Client) ListInProgressDeals]. *)
Definition ListInProgressDeals : M (list ClientDeal * option error) :=
  r ← Group_List;
  match r with
  | Err err => mret ([], Some err)
  | Ok out => mret (out, None)
  end.

(** [(c *Client) GetInProgressDeal]. *)
Definition GetInProgressDeal (cid : Cid) : M (ClientDeal * option error) :=
  r ← Group_Get cid;
  match r with
  | Err err => mret (ClientDeal_zero, Some err)
  | Ok out => mret (out, None)
  end.

(** [(c *Client) GetAsk]. *)
Definition GetAsk (c : Client) (info : StorageProviderInfo)
  : M (outcome (option SignedStorageAsk * option error)) :=
  _ ← call (CallNewAskStream (spi_PeerID info));
  match NewAskStream (net c) (spi_PeerID info) with
  | Err err =>
      mret (Returns
              (None,
               Some (errors_Wrap "failed to open stream to miner: %w" err)))
  | Ok s =>
      let request := {| req_Miner := spi_Address info |} in
      _ ← call (CallWriteAskRequest request);
      match WriteAskRequest s request with
      | Some err =>
          mret (Returns
                  (None,
                   Some (errors_Wrap "failed to send ask request: %w" err)))
      | None =>
          _ ← call CallReadAskResponse;
          match ReadAskResponse s with
          | Err err =>
              mret (Returns
                      (None,
                       Some (errors_Wrap "failed to read ask response: %w"
                                         err)))
          | Ok out =>
              match resp_Ask out with
              | None =>
                  mret (Returns (None, Some (errors_New "got no ask back")))
              | Some ask =>
                  match ssa_Ask ask with
                  | None => mret Panics
                  | Some a =>
                      if decide (Miner a ≠ spi_Address info) then
                        mret (Returns
                                (None,
                                 Some (errors_New
                                         "got back ask for wrong miner")))
                      else
                        _ ← call (CallValidateAskSignature ask);
                        match ValidateAskSignature (node c) ask with
                        | Some _ =>
                            mret (Returns
                                    (None,
                                     Some (errors_New
                                             "ask was not properly signed")))
                        | None => mret (Returns (Some ask, None))
                        end
                  end
              end
          end
      end
  end.

(** [(c *Client) ProposeStorageDeal].  The pointers [info] and [data] are
    taken as the structs they point to. *)
Definition ProposeStorageDeal
    (c : Client) (addr : Address) (info : StorageProviderInfo)
    (data : DataRef) (startEpoch endEpoch : ChainEpoch)
    (price collateral : TokenAmount) (rt : RegisteredProof)
  : M (option ProposeStorageDealResult * option error) :=
  _ ← call (CallCommP rt data);
  let '(commP, pieceSize, err) := CommP (pio c) rt data in
  match err with
  | Some err =>
      mret (None, Some (errors_Wrap "computing commP failed: %w" err))
  | None =>
      let dealProposal :=
        {| market.PieceCID := commP;
           market.PieceSize := Padded pieceSize;
           market.Client := addr;
           market.Provider := spi_Address info;
           market.StartEpoch := startEpoch;
           market.EndEpoch := endEpoch;
           market.StoragePricePerEpoch := price;
           market.ProviderCollateral := NewTokenAmount (int64 pieceSize);
           market.ClientCollateral := big_Zero |} in
      _ ← call (CallSignProposal addr dealProposal);
      match SignProposal (node c) addr dealProposal with
      | Err err =>
          mret (None,
                Some (errors_Wrap "signing deal proposal failed: %w" err))
      | Ok clientDealProposal =>
          _ ← call (CallAsIpld clientDealProposal);
          match AsIpld clientDealProposal with
          | Err err =>
              mret (None,
                    Some (errors_Wrap "getting proposal node failed: %w"
                                      err))
          | Ok proposalNd =>
              let deal :=
                {| cd_ClientDealProposal := clientDealProposal;
                   cd_ProposalCid := nd_Cid proposalNd;
                   cd_State := StorageDealUnknown;
                   cd_Miner := spi_PeerID info;
                   cd_MinerWorker := spi_Worker info;
                   cd_DataRef := Some data |} in
              _ ← call (CallBegin (nd_Cid proposalNd) deal);
              err ← Begin (nd_Cid proposalNd) deal;
              match err with
              | Some err =>
                  mret (None,
                        Some (errors_Wrap "setting up deal tracking: %w"
                                          err))
              | None =>
                  _ ← call (CallNewDealStream (spi_PeerID info));
                  match NewDealStream (net c) (spi_PeerID info) with
                  | Err err =>
                      mret (None,
                            Some (errors_Wrap
                                    "connecting to storage provider failed: %w"
                                    err))
                  | Ok s =>
                      _ ← conns_store (cd_ProposalCid deal) s;
                      _ ← call (CallSend (cd_ProposalCid deal)
                                         ClientEventOpen);
                      err ← Send ClientEvents (cd_ProposalCid deal)
                                 ClientEventOpen;
                      match err with
                      | Some err =>
                          mret (None,
                                Some (errors_Wrap
                                        "initializing state machine: %w"
                                        err))
                      | None =>
                          let peer :=
                            {| rp_Address := market.Provider dealProposal;
                               rp_ID := cd_Miner deal |} in
                          _ ← call (CallAddPeer (Root data) peer);
                          mret (Some {| res_ProposalCid :=
                                          cd_ProposalCid deal |},
                                AddPeer (discovery c) (Root data) peer)
                      end
                  end
              end
          end
      end
  end.

End ClientOps.

(** *** The thin operations of the client *)

Section ClientQueries.

(** [storagemarket.StorageDeal] and [storagemarket.Balance] are handed
    through. *)
Context {StorageDeal Balance : Type}.

(** The methods of [storagemarket.StorageClientNode] behind the thin
    operations. *)
Record StorageClientNode_queries : Type := {
  ListStorageProviders : result (list StorageProviderInfo);
  ListClientDeals : Address -> list StorageDeal * option error;
  GetBalance : Address -> Balance * option error;
  AddFunds : Address -> TokenAmount -> option error
}.

(** The goroutine of [ListProviders], seen from a receiver that takes every
    value offered: the values sent on [out] before it is closed.  In round
    [i] of the loop the [select] either sends the provider or, when
    [ctx_done i] holds, takes [<-ctx.Done()] and returns; [close(out)] is
    deferred, so the channel is closed either way. *)
Fixpoint send_providers (ctx_done : nat -> bool) (i : nat)
    (providers : list StorageProviderInfo) : list StorageProviderInfo :=
  match providers with
  | [] => []
  | p :: providers =>
      if ctx_done i then []
      else p :: send_providers ctx_done (S i) providers
  end.

(** [(c *Client) ListProviders]: the channel (as what it delivers) and the
    error. *)
Definition ListProviders (q : StorageClientNode_queries)
    (ctx_done : nat -> bool)
  : option (list StorageProviderInfo) * option error :=
  match ListStorageProviders q with
  | Err err => (None, Some err)
  | Ok providers => (Some (send_providers ctx_done 0 providers), None)
  end.

(** [(c *Client) ListDeals], [GetPaymentEscrow] and [AddPaymentEscrow]. *)
Definition ListDeals (q : StorageClientNode_queries) (addr : Address)
  : list StorageDeal * option error :=
  ListClientDeals q addr.

Definition GetPaymentEscrow (q : StorageClientNode_queries) (addr : Address)
  : Balance * option error :=
  GetBalance q addr.

Definition AddPaymentEscrow (q : StorageClientNode_queries) (addr : Address)
    (amount : TokenAmount) : option error :=
  AddFunds q addr amount.

End ClientQueries.

(** *** The life of a client *)

Section ClientLife.

Context {Node Blockstore OnNewCarBlockFunc Datastore DataTransfer : Type}.

Local Abbreviation PieceIO :=
  (@pieceio.pieceIO Node Blockstore OnNewCarBlockFunc).

Variable ClientEvents : ClientEvent -> option EventDesc.
Variable CommP :
  PieceIO -> RegisteredProof -> DataRef ->
  Cid * UnpaddedPieceSize * option error.
Variable Padded : UnpaddedPieceSize -> PaddedPieceSize.
Variable AsIpld : market.ClientDealProposal -> result IpldNode.

(** [cario.NewCarIO] and [fsm.New]; the latter hands out the engine with the
    records it found in the datastore. *)
Variable NewCarIO : @pieceio.CarIO Node Blockstore OnNewCarBlockFunc.
Variable fsm_New : Datastore -> result (gmap Cid ClientDeal).

(** [NewClient]: the client and the world it starts in.  The fields
    [dataTransfer], [bs] and [fs] are not read by the methods. *)
Definition NewClient
    (net : StorageMarketNetwork) (bs : Blockstore)
    (dataTransfer : DataTransfer) (discovery : discovery_Local)
    (ds : Datastore) (scn : StorageClientNode)
  : option (@Client PieceIO * World) * option error :=
  let carIO := NewCarIO in
  let pio := pieceio.NewPieceIO carIO bs in
  let c := {| net := net; pio := pio; discovery := discovery; node := scn |} in
  match fsm_New ds with
  | Err err => (None, Some err)
  | Ok statemachines =>
      (Some (c, {| statemachines := statemachines; conns := ∅;
                   calls := [] |}),
       None)
  end.

(** The operations that are run on a client once it exists: the methods of
    the client and, for the handlers of the engine, the two methods of the
    environment. *)
Inductive ClientOp : Type :=
| DoGetAsk (info : StorageProviderInfo)
| DoProposeStorageDeal (addr : Address) (info : StorageProviderInfo)
    (data : DataRef) (startEpoch endEpoch : ChainEpoch)
    (price collateral : TokenAmount) (rt : RegisteredProof)
| DoListInProgressDeals
| DoGetInProgressDeal (id : Cid)
| DoDealStream (id : Cid)
| DoCloseStream (id : Cid).

Definition run_client_op (c : @Client PieceIO) (op : ClientOp) (w : World)
  : World :=
  match op with
  | DoGetAsk info => (GetAsk c info w).2
  | DoProposeStorageDeal addr info data startEpoch endEpoch price collateral
      rt =>
      (ProposeStorageDeal ClientEvents CommP Padded AsIpld c addr info data
         startEpoch endEpoch price collateral rt w).2
  | DoListInProgressDeals => (ListInProgressDeals w).2
  | DoGetInProgressDeal id => (GetInProgressDeal id w).2
  | DoDealStream id => (DealStream id w).2
  | DoCloseStream id => (CloseStream id w).2
  end.

Definition run_client_ops (c : @Client PieceIO) (ops : list ClientOp)
    (w : World) : World :=
  foldl (fun w op => run_client_op c op w) w ops.

End ClientLife.

(** Every stream in the registry belongs to a deal the engine tracks. *)
Definition registry_tracked (w : World) : Prop :=
  ∀ id, is_Some (conns w !! id) → is_Some (statemachines w !! id).

End storageimpl.

(** ** Instances used to run the definitions *)
Module examples.

Import pieceio.

Definition carIO1 : @CarIO unit unit unit :=
  {| WriteCar := fun _ _ _ _ => ([Byte.x01; Byte.x02], None);
     PrepareCar := fun _ _ _ =>
       Ok {| Size := 2; Dump := ([Byte.x01; Byte.x02], None) |};
     LoadCar := fun _ _ => (cid_Undef, None) |}.

(** An encoder whose direct write fails after one byte. *)
Definition carIO_fails : @CarIO unit unit unit :=
  {| WriteCar := fun _ _ _ _ => ([Byte.x01], Some (errors_New "short write"));
     PrepareCar := fun _ _ _ =>
       Ok {| Size := 2;
             Dump := ([Byte.x01], Some (errors_New "short write")) |};
     LoadCar := fun _ _ => (cid_Undef, None) |}.

Definition pad1 (rd : Reader) (size : Z) : Reader * UnpaddedPieceSize :=
  (take (Z.to_nat size) rd ++ replicate (127 - Z.to_nat size) Byte.x00, 127).

Definition commit1 (rt : RegisteredSealProof) (rd : Reader)
    (size : UnpaddedPieceSize) : result Cid :=
  Ok "commP".

Definition os1 : OSPipe :=
  {| Pipe_err := None; w_Close := None; r_Close := None |}.

Definition handle1 : FileHandle :=
  {| f_Path := "fstmp1"; f_Seek_err := None;
     f_Close_err := Some (errors_New "close failed") |}.

Definition store1 : FileStore :=
  {| CreateTemp := Ok handle1;
     Delete := fun _ => Some (errors_New "delete failed") |}.

Definition pio1 : @pieceIOWithStore unit unit unit :=
  NewPieceIOWithStore carIO1 store1 tt.

Definition pio_fails : @pieceIOWithStore unit unit unit :=
  NewPieceIOWithStore carIO_fails store1 tt.

(** A pipe whose read end does not close cleanly. *)
Definition os_read_close_fails : OSPipe :=
  {| Pipe_err := None; w_Close := None;
     r_Close := Some (errors_New "close of read end failed") |}.

End examples.

(** Instances for the storage client. *)
Module client_examples.

Import storageimpl.

Definition stream1 : StorageDealStream :=
  {| sds_id := 1; sds_Close := Some (errors_New "stream reset") |}.

Definition stream2 : StorageDealStream :=
  {| sds_id := 2; sds_Close := None |}.

Definition world0 : World :=
  {| statemachines := ∅; conns := ∅; calls := [] |}.

Definition world1 : World :=
  {| statemachines := ∅;
     conns := <["deal-1" := stream1]> (<["deal-2" := stream2]> ∅);
     calls := [] |}.

Definition info1 : StorageProviderInfo :=
  {| spi_Address := "t01000"; spi_Worker := "t01001"; spi_PeerID := "12D3" |}.

(** An ask made out to another miner than the one of [info1]. *)
Definition ask_other_miner : SignedStorageAsk :=
  {| ssa_Ask := Some {| Miner := "t0999" |}; ssa_Signature := [] |}.

Definition ask_ok : SignedStorageAsk :=
  {| ssa_Ask := Some {| Miner := "t01000" |}; ssa_Signature := [] |}.

Definition askStream (ask : SignedStorageAsk) : StorageAskStream :=
  {| WriteAskRequest := fun _ => None;
     ReadAskResponse := Ok {| resp_Ask := Some ask |} |}.

Definition net_with (ask : SignedStorageAsk) : StorageMarketNetwork :=
  {| NewAskStream := fun _ => Ok (askStream ask);
     NewDealStream := fun _ => Ok stream2 |}.

Definition node1 : StorageClientNode :=
  {| ValidateAskSignature := fun _ => None;
     SignProposal := fun addr p =>
       Ok {| market.Proposal := p; market.ClientSignature := [] |} |}.

Definition client_with (ask : SignedStorageAsk) : @Client unit :=
  {| net := net_with ask; pio := tt;
     discovery := {| AddPeer := fun _ _ => None |};
     node := node1 |}.

(** A client whose discovery store refuses the peer. *)
Definition client_no_discovery : @Client unit :=
  {| net := net_with ask_ok; pio := tt;
     discovery := {| AddPeer := fun _ _ => Some (errors_New "store full") |};
     node := node1 |}.

(** A client whose node does not sign. *)
Definition client_no_signature : @Client unit :=
  {| net := net_with ask_ok; pio := tt;
     discovery := {| AddPeer := fun _ _ => None |};
     node :=
       {| ValidateAskSignature := fun _ => None;
          SignProposal := fun _ _ => Err (errors_New "no key") |} |}.

Definition CommP1 (_ : unit) (rt : RegisteredProof) (data : DataRef)
  : Cid * UnpaddedPieceSize * option error :=
  ("commP", 127, None).

Definition Padded1 (s : UnpaddedPieceSize) : PaddedPieceSize := s + s / 127.

Definition AsIpld1 (p : market.ClientDealProposal) : result IpldNode :=
  Ok {| nd_Cid := "proposal-1" |}.

(** A table with the open event only; its handler looks up the stream of the
    deal. *)
Definition ClientEvents1 (ev : ClientEvent) : option EventDesc :=
  if decide (ev = ClientEventOpen) then
    Some {| ev_from := StorageDealUnknown; ev_to := 1;
            ev_handler := fun d =>
              EnvDealStream (cd_ProposalCid d) (fun _ => EnvDone) |}
  else None.

Definition data1 : DataRef := {| Root := "root" |}.

(** An ask that arrives without its payload, and a client whose node accepts
    no signature. *)
Definition ask_no_payload : SignedStorageAsk :=
  {| ssa_Ask := None; ssa_Signature := [] |}.

Definition client_rejecting (ask : SignedStorageAsk) : @Client unit :=
  {| net := net_with ask; pio := tt;
     discovery := {| AddPeer := fun _ _ => None |};
     node :=
       {| ValidateAskSignature := fun _ => Some (errors_New "bad signature");
          SignProposal := fun addr p =>
            Ok {| market.Proposal := p; market.ClientSignature := [] |} |} |}.

End client_examples.

(** Further instances: a world in which a deal is tracked and has its
    stream, a preparation step that announces a piece of [2^63] bytes, and
    what [NewClient] is made from. *)
Module life_examples.

Import storageimpl.

Definition world_tracking : World :=
  {| statemachines := <["deal-1" := ClientDeal_zero]> ∅;
     conns := <["deal-1" := client_examples.stream1]> ∅;
     calls := [] |}.

Definition CommP_huge (_ : unit) (rt : RegisteredProof) (data : DataRef)
  : Cid * UnpaddedPieceSize * option error :=
  ("commP", 2 ^ 63, None).

Definition fsm_New_empty (ds : unit) : result (gmap Cid ClientDeal) := Ok ∅.

Definition CommP_pio (_ : @pieceio.pieceIO unit unit unit)
    (rt : RegisteredProof) (data : DataRef)
  : Cid * UnpaddedPieceSize * option error :=
  ("commP", 127, None).

Definition new_client : @Client (@pieceio.pieceIO unit unit unit) :=
  {| net := client_examples.net_with client_examples.ask_ok;
     pio := pieceio.NewPieceIO examples.carIO1 tt;
     discovery := {| AddPeer := fun _ _ => None |};
     node := client_examples.node1 |}.

Definition providers1 : list StorageProviderInfo :=
  [client_examples.info1;
   {| spi_Address := "t02000"; spi_Worker := "t02001"; spi_PeerID := "12D4" |}].

End life_examples.

(** * Properties of the piece preparation pipeline *)

(** Membership in the short explicit lists of steps, operations and calls. *)
Ltac solve_not_elem :=
  rewrite ?elem_of_app, ?elem_of_cons, ?elem_of_nil; intuition discriminate.

Section PipelineProperties.

Import pieceio.

Context {Node Blockstore OnNewCarBlockFunc : Type}.
Variable padreader_New : Reader -> Z -> Reader * UnpaddedPieceSize.
Variable GeneratePieceCIDFromFile :
  RegisteredSealProof -> Reader -> UnpaddedPieceSize -> result Cid.
Variable os : OSPipe.

Local Abbreviation commit :=
  (GeneratePieceCommitment padreader_New GeneratePieceCIDFromFile).
Local Abbreviation streaming :=
  (@pieceIO_GeneratePieceCommitment Node Blockstore OnNewCarBlockFunc
     padreader_New GeneratePieceCIDFromFile os).
Local Abbreviation disk :=
  (@GeneratePieceCommitmentToFile Node Blockstore OnNewCarBlockFunc
     padreader_New GeneratePieceCIDFromFile).

(** The producer leaves no error behind exactly when both the dump and the
    close of the write end went well. *)
Lemma producer_ok_iff (preparedCar : PreparedCar) :
  (producer os preparedCar).2 = None
  ↔ (Dump preparedCar).2 = None ∧ w_Close os = None.
Proof.
  unfold producer.
  destruct (Dump preparedCar) as [written [e|]], (w_Close os) as [e'|];
    simpl; intuition congruence.
Qed.

Lemma producer_written (preparedCar : PreparedCar) :
  (producer os preparedCar).1 = (Dump preparedCar).1.
Proof.
  unfold producer.
  by destruct (Dump preparedCar) as [written [e|]], (w_Close os) as [e'|].
Qed.

(** What a file holds once the archive was written to a new handle and the
    handle was rewound. *)
Lemma rewound_file_reads_all (h : FileHandle) (bytes : list Byte.byte) f :
  File_Seek_start (File_Write (File_new h) bytes) = (f, None) →
  File_Reader f = bytes ∧ f_handle f = h.
Proof.
  unfold File_Seek_start; simpl.
  destruct (f_Seek_err h); [done|].
  by intros [= <-].
Qed.

(** C1.  Streaming mode and disk-buffered mode return the same commitment
    and the same padded size whenever both succeed, provided the prepared
    encoding ([Size] and [Dump]) is the encoding [WriteCar] writes. *)
Theorem streaming_and_disk_agree
    (pio : pieceIOWithStore) (rt : RegisteredSealProof) (payloadCid : Cid)
    (selector : Node) (userOnNewCarBlocks : list OnNewCarBlockFunc)
    commitment paddedSize steps commitment' path paddedSize' ops :
  PrepareCar_matches_WriteCar (carIO (pio_pieceIO pio))
    (bs (pio_pieceIO pio)) payloadCid selector userOnNewCarBlocks →
  streaming (pio_pieceIO pio) rt payloadCid selector
    = ((commitment, paddedSize, None), steps) →
  disk pio rt payloadCid selector userOnNewCarBlocks
    = ((commitment', path, paddedSize', None), ops) →
  commitment = commitment' ∧ paddedSize = paddedSize'.
Proof.
  unfold PrepareCar_matches_WriteCar, pieceIO_GeneratePieceCommitment,
    GeneratePieceCommitmentToFile.
  destruct (PrepareCar _ _ _ _) as [preparedCar|e]; [|done].
  intros [Hdump Hsize].
  destruct (Pipe_err os); [done|].
  pose proof (producer_written preparedCar) as Hw.
  destruct (producer os preparedCar) as [r werr]; simpl in Hw; subst r.
  destruct (commit rt _ (uint64 (Size preparedCar)))
    as [[c sz] err] eqn:Hstream.
  destruct err; [done|]. destruct (r_Close os); [done|].
  destruct werr; [done|]. intros [= -> -> _].
  destruct (CreateTemp (store pio)) as [h|e]; [|done].
  destruct (WriteCar _ _ _ _ _) as [bytes werr]; simpl in Hdump, Hsize.
  destruct werr; [done|].
  destruct (File_Seek_start _) as [f serr] eqn:Hseek.
  destruct serr; [done|].
  apply rewound_file_reads_all in Hseek as [Hread _].
  rewrite Hread. unfold File_Size; simpl.
  rewrite <- Hsize, <- Hdump, Hstream.
  by intros [= -> _ ->].
Qed.

(** In streaming mode a failure of the consumer side (the pad-and-commit read
    path, or the close of the read end) is returned at once: the main path
    does not reach [stop.Wait()]. *)
Lemma streaming_consumer_failure_returns_early
    (pio : pieceIO) (rt : RegisteredSealProof) (payloadCid : Cid)
    (selector : Node) preparedCar c sz err steps :
  PrepareCar (carIO pio) (bs pio) payloadCid selector = Ok preparedCar →
  Pipe_err os = None →
  streaming pio rt payloadCid selector = ((c, sz, err), steps) →
  (commit rt (Dump preparedCar).1 (uint64 (Size preparedCar))).2 ≠ None
  ∨ r_Close os ≠ None →
  err ≠ None ∧ StepWait ∉ steps.
Proof.
  unfold pieceIO_GeneratePieceCommitment. intros -> ->.
  pose proof (producer_written preparedCar) as Hw.
  destruct (producer os preparedCar) as [r werr]; simpl in Hw; subst r.
  destruct (commit rt _ _) as [[c0 sz0] [e|]]; simpl.
  - intros Hrun _. simplify_eq. split; [done|].
    solve_not_elem.
  - destruct (r_Close os) as [e|].
    + intros Hrun _. simplify_eq. split; [done|].
      solve_not_elem.
    + intros _ [?|?]; done.
Qed.

(** C2.  Once the pipe is set up, streaming mode succeeds only when the
    producer (the dump into the pipe and the close of the write end), the
    consumer (the pad-and-commit read path) and the close of the read end
    all succeeded, and it then returns from behind [stop.Wait()].  When the
    consumer and the close of the read end reported no error, the call waits
    for the producer and returns the producer's error, if any.  When the
    consumer failed, or else the close of the read end failed, that error is
    returned at once, without waiting for the producer and whatever the
    producer did. *)
Theorem streaming_joint_success
    (pio : pieceIO) (rt : RegisteredSealProof) (payloadCid : Cid)
    (selector : Node) preparedCar c sz err steps :
  PrepareCar (carIO pio) (bs pio) payloadCid selector = Ok preparedCar →
  Pipe_err os = None →
  streaming pio rt payloadCid selector = ((c, sz, err), steps) →
  let werr := (producer os preparedCar).2 in
  let cerr :=
    (commit rt (Dump preparedCar).1 (uint64 (Size preparedCar))).2 in
  (err = None →
     ((Dump preparedCar).2 = None ∧ w_Close os = None)
     ∧ cerr = None ∧ r_Close os = None ∧ last steps = Some StepWait)
  ∧ (cerr = None → r_Close os = None →
     err = werr ∧ last steps = Some StepWait)
  ∧ (∀ e, cerr = Some e → err = Some e ∧ StepWait ∉ steps)
  ∧ (cerr = None → ∀ e, r_Close os = Some e →
     err = Some e ∧ StepWait ∉ steps).
Proof.
  unfold pieceIO_GeneratePieceCommitment. intros -> ->.
  pose proof (producer_ok_iff preparedCar) as Hok.
  pose proof (producer_written preparedCar) as Hw.
  destruct (producer os preparedCar) as [r werr]; simpl in Hok, Hw; subst r.
  destruct (commit rt _ _) as [[c0 sz0] [e|]]; simpl.
  { intros Hrun. simplify_eq. split_and!; try done.
    intros e' [= <-]. split; [done|]. solve_not_elem. }
  destruct (r_Close os) as [e|].
  { intros Hrun. simplify_eq. split_and!; try done.
    intros _ e' [= <-]. split; [done|]. solve_not_elem. }
  destruct werr as [e|]; intros Hrun; simplify_eq; simpl.
  - split_and!; try done.
  - split_and!; try done. intros _. split_and!; try done; by apply Hok.
Qed.

(** C3.  In disk-buffered mode, once the temporary file exists, every failure
    returns the zero results and the error of the step that failed (the
    archive write, the seek, or the commitment), after the file was closed
    and deleted, the last two things done; a success returns the path of the
    file, which was closed and not deleted; and what closing and deleting
    report never shows in the results. *)
Theorem disk_failure_cleans_up
    (pio : pieceIOWithStore) (rt : RegisteredSealProof) (payloadCid : Cid)
    (selector : Node) (userOnNewCarBlocks : list OnNewCarBlockFunc)
    h c path sz err ops :
  CreateTemp (store pio) = Ok h →
  disk pio rt payloadCid selector userOnNewCarBlocks
    = ((c, path, sz, err), ops) →
  let p := f_Path h in
  let written :=
    WriteCar (carIO (pio_pieceIO pio)) (bs (pio_pieceIO pio)) payloadCid
      selector userOnNewCarBlocks in
  (∀ e, err = Some e →
     c = cid_Undef ∧ path = EmptyString ∧ sz = 0
     ∧ (∃ pre, ops = pre ++ [OpClose p; OpDelete p]
               ∧ (OpClose p ∉ pre) ∧ (OpDelete p ∉ pre))
     ∧ (written.2 = Some e
        ∨ (written.2 = None ∧ f_Seek_err h = Some e)
        ∨ (written.2 = None ∧ f_Seek_err h = None
           ∧ (commit rt written.1
                (uint64 (Z.of_nat (length written.1)))).2 = Some e)))
  ∧ (err = None →
     path = p ∧ (OpDelete p ∉ ops) ∧ last ops = Some (OpClose p))
  ∧ (∀ closeErr delete,
       disk {| pio_pieceIO := pio_pieceIO pio;
               store :=
                 {| CreateTemp :=
                      Ok {| f_Path := f_Path h;
                            f_Seek_err := f_Seek_err h;
                            f_Close_err := closeErr |};
                    Delete := delete |} |}
            rt payloadCid selector userOnNewCarBlocks
       = ((c, path, sz, err), ops)).
Proof.
  unfold GeneratePieceCommitmentToFile, cleanup, File_Seek_start.
  intros ->. simpl.
  destruct (WriteCar _ _ _ _ _) as [bytes [e|]]; simpl.
  { intros Hrun. simplify_eq. split; [|split]; [|done..].
    intros e' [= ->]. split_and!; [done..| |by left].
    exists [OpCreateTemp (f_Path h); OpWriteCar (f_Path h)].
    split_and!; [done|solve_not_elem..]. }
  destruct (f_Seek_err h) as [e|] eqn:Hseek; simpl.
  { intros Hrun. simplify_eq. split; [|split]; [|done..].
    intros e' [= ->]. split_and!; [done..| |by right; left].
    exists [OpCreateTemp (f_Path h); OpWriteCar (f_Path h);
            OpSeek (f_Path h)].
    split_and!; [done|solve_not_elem..]. }
  unfold File_Reader, File_Size; simpl.
  change (drop 0 bytes) with bytes.
  destruct (commit rt bytes _) as [[c0 sz0] [e|]] eqn:Hcommit; simpl.
  { intros Hrun. simplify_eq. split; [|split]; [|done..].
    intros e' [= ->]. split_and!; [done..| |by right; right].
    exists [OpCreateTemp (f_Path h); OpWriteCar (f_Path h);
            OpSeek (f_Path h); OpCommit (f_Path h)].
    split_and!; [done|solve_not_elem..]. }
  intros Hrun. simplify_eq. split; [done|split]; [|done].
  intros _. split_and!; [done|solve_not_elem|done].
Qed.

End PipelineProperties.

Lemma streaming_and_disk_agree_witness :
  pieceio.PrepareCar_matches_WriteCar examples.carIO1 tt "root" tt []
  ∧ "commP" = "commP" ∧ 127 = 127.
Proof.
  split.
  - vm_compute. split; reflexivity.
  - apply (streaming_and_disk_agree examples.pad1 examples.commit1
             examples.os1 examples.pio1 1 "root" tt []
             "commP" 127
             [pieceio.StepPrepare; pieceio.StepPipe; pieceio.StepGo;
              pieceio.StepCommit; pieceio.StepCloseRead; pieceio.StepWait]
             "commP" "fstmp1" 127
             [pieceio.OpCreateTemp "fstmp1"; pieceio.OpWriteCar "fstmp1";
              pieceio.OpSeek "fstmp1"; pieceio.OpCommit "fstmp1";
              pieceio.OpClose "fstmp1"]).
    + vm_compute. split; reflexivity.
    + reflexivity.
    + reflexivity.
Defined.

Lemma streaming_joint_success_witness :
  let run :=
    pieceio.pieceIO_GeneratePieceCommitment examples.pad1 examples.commit1
      examples.os1 (pieceio.pio_pieceIO examples.pio_fails) 1 "root" tt in
  run.1.2 = Some (errors_New "short write")
  ∧ last run.2 = Some pieceio.StepWait.
Proof.
  pose proof
    (streaming_joint_success examples.pad1 examples.commit1 examples.os1
       (pieceio.pio_pieceIO examples.pio_fails) 1 "root" tt
       {| pieceio.Size := 2;
          pieceio.Dump := ([Byte.x01], Some (errors_New "short write")) |}
       cid_Undef 0 (Some (errors_New "short write"))
       [pieceio.StepPrepare; pieceio.StepPipe; pieceio.StepGo;
        pieceio.StepCommit; pieceio.StepCloseRead; pieceio.StepWait]
       eq_refl eq_refl eq_refl) as (_ & H & _).
  exact (H eq_refl eq_refl).
Defined.

(** The consumer reports no error, the producer fails, and the read end does
    not close cleanly: the call returns the close error, not the producer's,
    and it returns without having waited for the producer. *)
Lemma streaming_joint_success_counterexample :
  let preparedCar :=
    {| pieceio.Size := 2;
       pieceio.Dump := ([Byte.x01], Some (errors_New "short write")) |} in
  let run :=
    pieceio.pieceIO_GeneratePieceCommitment examples.pad1 examples.commit1
      examples.os_read_close_fails (pieceio.pio_pieceIO examples.pio_fails)
      1 "root" tt in
  (pieceio.GeneratePieceCommitment examples.pad1 examples.commit1 1
     (pieceio.Dump preparedCar).1 (uint64 (pieceio.Size preparedCar))).2
  = None
  ∧ (pieceio.producer examples.os_read_close_fails preparedCar).2
    = Some (errors_New "short write")
  ∧ run.1.2 = Some (errors_New "close of read end failed")
  ∧ run.1.2 ≠ (pieceio.producer examples.os_read_close_fails preparedCar).2
  ∧ pieceio.StepWait ∉ run.2.
Proof.
  intros preparedCar run.
  assert (run.2 = [pieceio.StepPrepare; pieceio.StepPipe; pieceio.StepGo;
                   pieceio.StepCommit; pieceio.StepCloseRead]) as Hsteps
    by reflexivity.
  split_and!; [reflexivity..| |].
  - vm_compute. discriminate.
  - rewrite Hsteps. solve_not_elem.
Qed.

Lemma disk_failure_cleans_up_witness :
  pieceio.GeneratePieceCommitmentToFile examples.pad1 examples.commit1
    examples.pio_fails 1 "root" tt []
  = ((cid_Undef, EmptyString, 0, Some (errors_New "short write")),
     [pieceio.OpCreateTemp "fstmp1"; pieceio.OpWriteCar "fstmp1";
      pieceio.OpClose "fstmp1"; pieceio.OpDelete "fstmp1"])
  ∧ ∀ closeErr delete,
      pieceio.GeneratePieceCommitmentToFile examples.pad1 examples.commit1
        (pieceio.NewPieceIOWithStore examples.carIO_fails
           {| pieceio.CreateTemp :=
                Ok {| pieceio.f_Path := "fstmp1";
                      pieceio.f_Seek_err := None;
                      pieceio.f_Close_err := closeErr |};
              pieceio.Delete := delete |} tt)
        1 "root" tt []
      = ((cid_Undef, EmptyString, 0, Some (errors_New "short write")),
         [pieceio.OpCreateTemp "fstmp1"; pieceio.OpWriteCar "fstmp1";
          pieceio.OpClose "fstmp1"; pieceio.OpDelete "fstmp1"]).
Proof.
  split; [reflexivity|].
  pose proof
    (disk_failure_cleans_up examples.pad1 examples.commit1
       examples.pio_fails 1 "root" tt [] examples.handle1
       cid_Undef EmptyString 0 (Some (errors_New "short write"))
       [pieceio.OpCreateTemp "fstmp1"; pieceio.OpWriteCar "fstmp1";
        pieceio.OpClose "fstmp1"; pieceio.OpDelete "fstmp1"]
       eq_refl eq_refl) as (_ & _ & H).
  exact H.
Defined.

(** * Properties of the connection registry *)

Section RegistryProperties.

Import storageimpl.

(** [DealStream] reads the registry and changes nothing. *)
Lemma DealStream_spec (id : Cid) (w : World) :
  DealStream id w
  = (match conns w !! id with
     | Some s => (Some s, None)
     | None => (None, Some (errors_New "no connection to provider"))
     end, w).
Proof.
  unfold DealStream, mbind, M_bind, get_conns; simpl.
  by destruct (conns w !! id).
Qed.

(** [CloseStream], one case per branch. *)
Lemma CloseStream_unfold (id : Cid) (w : World) :
  CloseStream id w
  = match conns w !! id with
    | None => (None, w)
    | Some s =>
        (sds_Close s,
         {| statemachines := statemachines w;
            conns := delete id (conns w);
            calls := calls w ++ [CallStreamClose s] |})
    end.
Proof.
  unfold CloseStream, mbind, M_bind, get_conns; simpl.
  by destruct (conns w !! id).
Qed.

(** C7.  [CloseStream id] on an identifier that is not in the registry
    returns no error and changes nothing; on one that is, it closes the
    stream, deletes the entry (and only that entry), and returns what closing
    the stream returned. *)
Theorem CloseStream_no_op_or_close (id : Cid) (w : World) :
  (conns w !! id = None → CloseStream id w = (None, w))
  ∧ (∀ s, conns w !! id = Some s →
       (CloseStream id w).1 = sds_Close s
       ∧ calls (CloseStream id w).2 = calls w ++ [CallStreamClose s]
       ∧ conns (CloseStream id w).2 !! id = None
       ∧ (∀ id', id' ≠ id →
            conns (CloseStream id w).2 !! id' = conns w !! id')
       ∧ statemachines (CloseStream id w).2 = statemachines w).
Proof.
  rewrite CloseStream_unfold. split.
  - by intros ->.
  - intros s ->; simpl. split_and!; try done.
    + apply lookup_delete_eq.
    + intros id' Hne. by apply lookup_delete_ne.
Qed.

(** A run of registry operations that does not store a stream for [id] leaves
    [id] out of the registry if it was out before. *)
Lemma run_ops_keeps_absent (id : Cid) (ops : list RegistryOp) (w : World) :
  forallb (λ op, negb (stores_for id op)) ops = true →
  conns w !! id = None →
  conns (run_ops ops w).2 !! id = None.
Proof.
  revert w. induction ops as [|op ops IH]; intros w Hops Hw; [done|].
  simpl in Hops. apply andb_prop in Hops as [Hop Hops].
  simpl. unfold mbind, M_bind.
  destruct (run_op op w) as [[] w1] eqn:Hrun.
  apply IH; [done|].
  destruct op as [id' s|id'|id']; simpl in Hrun, Hop.
  - unfold conns_store, mbind, M_bind, get_conns, set_conns in Hrun.
    simplify_eq; simpl.
    apply negb_true_iff, bool_decide_eq_false in Hop.
    by rewrite lookup_insert_ne.
  - unfold mbind, M_bind in Hrun. rewrite DealStream_spec in Hrun.
    unfold mret, M_ret in Hrun. by simplify_eq.
  - unfold mbind, M_bind in Hrun. rewrite CloseStream_unfold in Hrun.
    unfold mret, M_ret in Hrun.
    destruct (conns w !! id') as [s|] eqn:Hid'; simplify_eq; simpl; [|done].
    destruct (decide (id' = id)) as [->|Hne].
    + by rewrite lookup_delete_eq.
    + by rewrite lookup_delete_ne.
Qed.

(** C8.  After [CloseStream id], [DealStream id] returns no stream and the
    error "no connection to provider", also after any further registry
    operations that store no stream for [id]; once a stream is stored for
    [id], [DealStream id] returns it. *)
Theorem DealStream_after_CloseStream
    (id : Cid) (ops : list RegistryOp) (w : World) :
  forallb (λ op, negb (stores_for id op)) ops = true →
  let w' := (run_ops ops (CloseStream id w).2).2 in
  (DealStream id w').1
  = (None, Some (errors_New "no connection to provider"))
  ∧ ∀ s, (DealStream id (conns_store id s w').2).1 = (Some s, None).
Proof.
  intros Hops w'.
  assert (conns w' !! id = None) as Hw'.
  { apply run_ops_keeps_absent; [done|].
    rewrite CloseStream_unfold.
    destruct (conns w !! id) eqn:Hid; simpl; [|done].
    by rewrite lookup_delete_eq. }
  split.
  - by rewrite DealStream_spec, Hw'.
  - intros s. rewrite DealStream_spec.
    unfold conns_store, mbind, M_bind, get_conns, set_conns; simpl.
    by rewrite lookup_insert_eq.
Qed.

End RegistryProperties.

Lemma CloseStream_no_op_or_close_witness :
  storageimpl.CloseStream "deal-9" client_examples.world1
  = (None, client_examples.world1)
  ∧ (storageimpl.CloseStream "deal-1" client_examples.world1).1
    = Some (errors_New "stream reset")
  ∧ storageimpl.conns
      (storageimpl.CloseStream "deal-1" client_examples.world1).2
      !! "deal-1" = None.
Proof.
  pose proof (CloseStream_no_op_or_close "deal-9" client_examples.world1)
    as [Habsent _].
  pose proof (CloseStream_no_op_or_close "deal-1" client_examples.world1)
    as [_ Hpresent].
  split; [exact (Habsent eq_refl)|].
  destruct (Hpresent client_examples.stream1 eq_refl) as (H1 & _ & H2 & _).
  exact (conj H1 H2).
Defined.

Lemma DealStream_after_CloseStream_witness :
  let ops :=
    [storageimpl.RegDealStream "deal-1"; storageimpl.RegCloseStream "deal-2";
     storageimpl.RegStore "deal-3" client_examples.stream2;
     storageimpl.RegCloseStream "deal-1"] in
  let w' :=
    (storageimpl.run_ops ops
       (storageimpl.CloseStream "deal-1" client_examples.world1).2).2 in
  (storageimpl.DealStream "deal-1" w').1
  = (None, Some (errors_New "no connection to provider")).
Proof.
  intros ops w'.
  exact (proj1 (DealStream_after_CloseStream "deal-1" ops
                  client_examples.world1 eq_refl)).
Defined.

(** * Properties of the state machine engine and of the client *)

Section ClientProperties.

Import storageimpl.

Context {PieceIO : Type}.
Variable ClientEvents : ClientEvent -> option EventDesc.
Variable CommP :
  PieceIO -> RegisteredProof -> DataRef ->
  Cid * UnpaddedPieceSize * option error.
Variable Padded : UnpaddedPieceSize -> PaddedPieceSize.
Variable AsIpld : market.ClientDealProposal -> result IpldNode.

Local Abbreviation propose :=
  (@ProposeStorageDeal PieceIO ClientEvents CommP Padded AsIpld).

(** A handler acts through the environment: it leaves the records of the
    engine alone and only adds to the calls made. *)
Lemma run_handler_frame (p : EnvProg) (w : World) :
  statemachines (run_handler p w).2 = statemachines w
  ∧ ∃ new, calls (run_handler p w).2 = calls w ++ new.
Proof.
  revert w. induction p as [|id k IH|id k IH]; intros w; simpl.
  - split; [done|]. exists []. by rewrite app_nil_r.
  - unfold mbind, M_bind. rewrite DealStream_spec. apply IH.
  - unfold mbind, M_bind. rewrite CloseStream_unfold.
    destruct (conns w !! id) as [s|]; [|apply IH].
    destruct (IH (sds_Close s)
                {| statemachines := statemachines w;
                   conns := delete id (conns w);
                   calls := calls w ++ [CallStreamClose s] |})
      as [Hsm [new Hcalls]].
    split; [done|]. exists (CallStreamClose s :: new).
    rewrite Hcalls; simpl. by rewrite <- app_assoc.
Qed.

(** [Begin], one case per branch. *)
Lemma Begin_unfold (id : Cid) (deal : ClientDeal) (w : World) :
  Begin id deal w
  = match statemachines w !! id with
    | Some _ => (Some (errors_New "already tracking identifier"), w)
    | None =>
        (None,
         {| statemachines := <[id := deal]> (statemachines w);
            conns := conns w; calls := calls w |})
    end.
Proof.
  unfold Begin, mbind, M_bind, get_statemachines; simpl.
  by destruct (statemachines w !! id).
Qed.

(** [Send] fails without a change, or replaces the state of the record it was
    sent to and adds to the calls made. *)
Lemma Send_inv (id : Cid) (ev : ClientEvent) (w w' : World) err :
  Send ClientEvents id ev w = (err, w') →
  match err with
  | Some _ => w' = w
  | None =>
      ∃ d desc new,
        statemachines w !! id = Some d
        ∧ ClientEvents ev = Some desc
        ∧ ev_from desc = cd_State d
        ∧ statemachines w' = <[id := set_State (ev_to desc) d]> (statemachines w)
        ∧ calls w' = calls w ++ new
  end.
Proof.
  unfold Send, mbind, M_bind, mret, M_ret, get_statemachines,
    set_statemachines; simpl.
  destruct (statemachines w !! id) as [d|] eqn:Hd;
    [|by intros Hrun; simplify_eq].
  destruct (ClientEvents ev) as [desc|]; [|by intros Hrun; simplify_eq].
  destruct (decide _) as [Hfrom|]; [|by intros Hrun; simplify_eq].
  destruct (run_handler_frame (ev_handler desc d) w) as [Hsm [new Hcalls]].
  destruct (run_handler (ev_handler desc d) w) as [[] w1].
  simpl in *. intros Hrun; simplify_eq; simpl.
  by exists d, desc, new.
Qed.

Local Arguments Send : simpl never.
Local Arguments Begin : simpl never.

(** [GetAsk] leaves the records of the engine and the registry as they
    are. *)
Lemma GetAsk_frame (c : @Client PieceIO) (info : StorageProviderInfo) (w : World) :
  statemachines (GetAsk c info w).2 = statemachines w
  ∧ conns (GetAsk c info w).2 = conns w.
Proof.
  unfold GetAsk, mbind, M_bind, mret, M_ret, call; simpl.
  destruct (NewAskStream _ _) as [s|]; [|done].
  destruct (WriteAskRequest s _); [done|].
  destruct (ReadAskResponse s) as [out|]; [|done].
  destruct (resp_Ask out) as [ask|]; [|done].
  destruct (ssa_Ask ask) as [a|]; [|done].
  destruct (decide _); [done|].
  by destruct (ValidateAskSignature _ _).
Qed.

(** For a response whose ask carries its payload: when the ask names another
    miner than the provider asked, or the chain node does not accept its
    signature, [GetAsk] returns an error and no ask, and neither the records
    of the engine nor the registry change. *)
Theorem GetAsk_rejects
    (c : @Client PieceIO) (info : StorageProviderInfo) (w : World) s out ask a :
  NewAskStream (net c) (spi_PeerID info) = Ok s →
  WriteAskRequest s {| req_Miner := spi_Address info |} = None →
  ReadAskResponse s = Ok out →
  resp_Ask out = Some ask →
  ssa_Ask ask = Some a →
  Miner a ≠ spi_Address info ∨ ValidateAskSignature (node c) ask ≠ None →
  (∃ e, (GetAsk c info w).1 = Returns (None, Some e)
        ∧ (e = errors_New "got back ask for wrong miner"
           ∨ e = errors_New "ask was not properly signed"))
  ∧ statemachines (GetAsk c info w).2 = statemachines w
  ∧ conns (GetAsk c info w).2 = conns w.
Proof.
  intros Hs Hw Hr Hask Ha Hbad.
  split; [|apply GetAsk_frame].
  unfold GetAsk, mbind, M_bind, mret, M_ret, call; simpl.
  rewrite Hs, Hw, Hr, Hask, Ha.
  destruct (decide _) as [Hne|Heq]; simpl; [eauto|].
  destruct (ValidateAskSignature _ _) as [e|]; simpl; [eauto|].
  destruct Hbad as [Hbad|Hbad]; [|done].
  by destruct Heq.
Qed.

(** C6.  The code misses a case of the rejection: the source tests
    [out.Ask == nil] and then reads [out.Ask.Ask.Miner], so for a response
    whose ask arrives without its payload (the inner [Ask] is [nil])
    [GetAsk] does not return an error and no ask, it panics, whatever the
    chain node makes of the signature; the records of the engine and the
    registry are as they were. *)
Theorem GetAsk_panics_without_payload
    (c : @Client PieceIO) (info : StorageProviderInfo) (w : World) s out ask :
  NewAskStream (net c) (spi_PeerID info) = Ok s →
  WriteAskRequest s {| req_Miner := spi_Address info |} = None →
  ReadAskResponse s = Ok out →
  resp_Ask out = Some ask →
  ssa_Ask ask = None →
  (GetAsk c info w).1 = Panics
  ∧ (∀ r, (GetAsk c info w).1 ≠ Returns r)
  ∧ statemachines (GetAsk c info w).2 = statemachines w
  ∧ conns (GetAsk c info w).2 = conns w.
Proof.
  intros Hs Hw Hr Hask Ha.
  assert ((GetAsk c info w).1 = Panics) as Hpanic.
  { unfold GetAsk, mbind, M_bind, mret, M_ret, call; simpl.
    by rewrite Hs, Hw, Hr, Hask, Ha. }
  split; [done|]. split; [|apply GetAsk_frame].
  intros r. by rewrite Hpanic.
Qed.

(** C10.  The collateral argument of [ProposeStorageDeal] is not read: two
    calls that differ in it only return the same results and leave the same
    world (the records of the engine, the registry and the calls made, the
    proposal handed to the signer among them). *)
Theorem ProposeStorageDeal_ignores_collateral
    (c : @Client PieceIO) (addr : Address) (info : StorageProviderInfo)
    (data : DataRef) (startEpoch endEpoch : ChainEpoch)
    (price collateral collateral' : TokenAmount) (rt : RegisteredProof)
    (w : World) :
  propose c addr info data startEpoch endEpoch price collateral rt w
  = propose c addr info data startEpoch endEpoch price collateral' rt w.
Proof. reflexivity. Qed.

(** An [int64] conversion keeps the values below [2^63]. *)
Lemma int64_small (z : Z) : 0 ≤ z < 2 ^ 63 → int64 z = z.
Proof. intros Hz. unfold int64. rewrite Z.mod_small; lia. Qed.

(** What the engine holds under an identifier is what [GetInProgressDeal]
    returns for it, and is among what [ListInProgressDeals] returns. *)
Lemma engine_record_discoverable (id : Cid) (d : ClientDeal) (w : World) :
  statemachines w !! id = Some d →
  (GetInProgressDeal id w).1 = (d, None)
  ∧ (ListInProgressDeals w).1.2 = None
  ∧ d ∈ (ListInProgressDeals w).1.1.
Proof.
  intros Hd.
  unfold GetInProgressDeal, ListInProgressDeals, Group_Get, Group_List,
    mbind, M_bind, mret, M_ret, get_statemachines; simpl.
  rewrite Hd; simpl. split_and!; [done..|].
  apply list_elem_of_fmap. exists (id, d). split; [done|].
  by apply elem_of_map_to_list.
Qed.

Local Ltac unfold_propose :=
  unfold ProposeStorageDeal, mbind, M_bind, mret, M_ret, call, conns_store,
    get_conns, set_conns; simpl.

(** C9.  The proposal that [ProposeStorageDeal] makes up and hands to the
    signer has the piece size [pieceSize] of the preparation step converted
    to a token amount as its provider collateral, zero as its client
    collateral, and [pieceSize.Padded()] as its piece size. *)
Theorem ProposeStorageDeal_proposal_terms
    (c : @Client PieceIO) (addr : Address) (info : StorageProviderInfo)
    (data : DataRef) (startEpoch endEpoch : ChainEpoch)
    (price collateral : TokenAmount) (rt : RegisteredProof) (w : World)
    commP pieceSize :
  CommP (pio c) rt data = (commP, pieceSize, None) →
  ∃ dealProposal rest,
    calls (propose c addr info data startEpoch endEpoch price collateral rt
             w).2
    = calls w
        ++ CallCommP rt data :: CallSignProposal addr dealProposal :: rest
    ∧ market.ProviderCollateral dealProposal
      = NewTokenAmount (int64 pieceSize)
    ∧ (0 ≤ pieceSize < 2 ^ 63 →
       market.ProviderCollateral dealProposal = pieceSize)
    ∧ market.ClientCollateral dealProposal = 0
    ∧ market.PieceSize dealProposal = Padded pieceSize
    ∧ market.PieceCID dealProposal = commP.
Proof.
  intros HcommP. unfold_propose. rewrite HcommP; simpl.
  eexists _.
  destruct (SignProposal _ _ _) as [cdp|e]; simpl.
  2: { eexists []. rewrite <- !app_assoc; simpl.
       split_and!; try done. intros Hz. by apply int64_small. }
  destruct (AsIpld cdp) as [nd|e]; simpl.
  2: { eexists [_]. rewrite <- !app_assoc; simpl.
       split_and!; try done. intros Hz. by apply int64_small. }
  rewrite Begin_unfold; simpl.
  destruct (statemachines w !! nd_Cid nd) as [d0|] eqn:Hfresh; simpl.
  { eexists [_; _]. rewrite <- !app_assoc; simpl.
    split_and!; try done. intros Hz. by apply int64_small. }
  destruct (NewDealStream _ _) as [s|e]; simpl.
  2: { eexists [_; _; _]. rewrite <- !app_assoc; simpl.
       split_and!; try done. intros Hz. by apply int64_small. }
  destruct (Send _ _ _ _) as [serr wE] eqn:HSend.
  apply Send_inv in HSend.
  destruct serr as [e|]; simpl.
  { subst wE; simpl. eexists [_; _; _; _]. rewrite <- !app_assoc; simpl.
    split_and!; try done. intros Hz. by apply int64_small. }
  destruct HSend as (d & desc & new & _ & _ & _ & _ & Hcalls).
  rewrite Hcalls; simpl.
  eexists ([_; _; _; _] ++ new ++ [_]). rewrite <- !app_assoc; simpl.
  split_and!; try done. intros Hz. by apply int64_small.
Qed.

(** C5.  In a run of [ProposeStorageDeal] that returns no error, [Begin] for
    the identifier of the proposal is called before the stream is opened and
    before [Send] of the open event; when [Send] runs, the record is in the
    engine and the stream is in the registry under that identifier, so
    [DealStream], also as the first step of a handler, returns it. *)
Theorem ProposeStorageDeal_opens_in_order
    (c : @Client PieceIO) (addr : Address) (info : StorageProviderInfo)
    (data : DataRef) (startEpoch endEpoch : ChainEpoch)
    (price collateral : TokenAmount) (rt : RegisteredProof) (w w' : World)
    res :
  propose c addr info data startEpoch endEpoch price collateral rt w
  = ((res, None), w') →
  ∃ id deal s dealProposal clientDealProposal wS wE,
    res = Some {| res_ProposalCid := id |}
    ∧ statemachines w !! id = None
    ∧ NewDealStream (net c) (spi_PeerID info) = Ok s
    ∧ calls wS
      = calls w
          ++ [CallCommP rt data; CallSignProposal addr dealProposal;
              CallAsIpld clientDealProposal; CallBegin id deal;
              CallNewDealStream (spi_PeerID info);
              CallSend id ClientEventOpen]
    ∧ statemachines wS = <[id := deal]> (statemachines w)
    ∧ conns wS = <[id := s]> (conns w)
    ∧ (DealStream id wS).1 = (Some s, None)
    ∧ (∀ k, run_handler (EnvDealStream id k) wS
            = run_handler (k (Some s, None)) wS)
    ∧ Send ClientEvents id ClientEventOpen wS = (None, wE)
    ∧ w' = (call (CallAddPeer (Root data)
                    {| rp_Address := spi_Address info;
                       rp_ID := spi_PeerID info |}) wE).2.
Proof.
  unfold_propose.
  destruct (CommP (pio c) rt data) as [[commP pieceSize] [e|]]; simpl;
    [by intros Hrun; simplify_eq|].
  destruct (SignProposal _ _ _) as [cdp|e]; simpl;
    [|by intros Hrun; simplify_eq].
  destruct (AsIpld cdp) as [nd|e]; simpl; [|by intros Hrun; simplify_eq].
  rewrite Begin_unfold; simpl.
  destruct (statemachines w !! nd_Cid nd) as [d0|] eqn:Hfresh; simpl;
    [by intros Hrun; simplify_eq|].
  destruct (NewDealStream _ _) as [s|e]; simpl;
    [|by intros Hrun; simplify_eq].
  destruct (Send _ _ _ _) as [[e|] wE] eqn:HSend; simpl;
    [by intros Hrun; simplify_eq|].
  intros Hrun. simplify_eq.
  eexists (nd_Cid nd), _, s, _, cdp, _, wE.
  split_and!; [done|done|done| | | | | |exact HSend|done]; simpl.
  - by rewrite <- !app_assoc.
  - done.
  - done.
  - rewrite DealStream_spec; simpl. by rewrite lookup_insert_eq.
  - intros k. unfold mbind, M_bind. rewrite DealStream_spec; simpl.
    by rewrite lookup_insert_eq.
Qed.

Local Ltac use_Hleft d :=
  match goal with
  | Hleft : _ |- context [GetInProgressDeal _ ?wx] => apply (Hleft wx d)
  end.

(** C4.  A run of [ProposeStorageDeal] that returns an error either did not
    call [Begin], and then the records of the engine and the registry are as
    they were; or it called [Begin], and then a record is left under the
    identifier of the proposal, which [GetInProgressDeal] returns and
    [ListInProgressDeals] lists, and which, when the identifier was new, is
    the record handed to [Begin], up to its state. *)
Theorem ProposeStorageDeal_failure_trace
    (c : @Client PieceIO) (addr : Address) (info : StorageProviderInfo)
    (data : DataRef) (startEpoch endEpoch : ChainEpoch)
    (price collateral : TokenAmount) (rt : RegisteredProof) (w w' : World)
    res err :
  propose c addr info data startEpoch endEpoch price collateral rt w
  = ((res, Some err), w') →
  ∃ new,
    calls w' = calls w ++ new
    ∧ (((∀ id deal, CallBegin id deal ∉ new)
        ∧ res = None
        ∧ statemachines w' = statemachines w
        ∧ conns w' = conns w)
       ∨ (∃ id deal d,
            CallBegin id deal ∈ new
            ∧ statemachines w' !! id = Some d
            ∧ (GetInProgressDeal id w').1 = (d, None)
            ∧ d ∈ (ListInProgressDeals w').1.1
            ∧ (statemachines w !! id = None →
               ∃ st, d = set_State st deal))).
Proof.
  unfold_propose.
  destruct (CommP (pio c) rt data) as [[commP pieceSize] [e|]]; simpl.
  { intros Hrun. simplify_eq; simpl. eexists [_]. split; [done|left].
    split_and!; [|done..]. intros id deal. solve_not_elem. }
  match goal with
  | |- context [CallSignProposal addr ?p] => set (dp := p)
  end.
  destruct (SignProposal _ _ _) as [cdp|e]; simpl.
  2: { intros Hrun. simplify_eq; simpl. eexists [_; _].
       rewrite <- !app_assoc. split; [done|left].
       split_and!; [|done..]. intros id deal. solve_not_elem. }
  destruct (AsIpld cdp) as [nd|e]; simpl.
  2: { intros Hrun. simplify_eq; simpl. eexists [_; _; _].
       rewrite <- !app_assoc. split; [done|left].
       split_and!; [|done..]. intros id deal. solve_not_elem. }
  set (deal0 := {| cd_ClientDealProposal := cdp;
                   cd_ProposalCid := nd_Cid nd;
                   cd_State := StorageDealUnknown;
                   cd_Miner := spi_PeerID info;
                   cd_MinerWorker := spi_Worker info;
                   cd_DataRef := Some data |}).
  assert (∀ wx d (new : list Call),
            statemachines wx !! nd_Cid nd = Some d →
            (statemachines w !! nd_Cid nd = None →
             ∃ st, d = set_State st deal0) →
            CallBegin (nd_Cid nd) deal0 ∈ new →
            ∃ id deal d,
              CallBegin id deal ∈ new
              ∧ statemachines wx !! id = Some d
              ∧ (GetInProgressDeal id wx).1 = (d, None)
              ∧ d ∈ (ListInProgressDeals wx).1.1
              ∧ (statemachines w !! id = None →
                 ∃ st, d = set_State st deal)) as Hleft.
  { intros wx d new Hd Hnew Hin. exists (nd_Cid nd), deal0, d.
    pose proof (engine_record_discoverable _ _ _ Hd) as (? & _ & ?).
    by split_and!. }
  rewrite Begin_unfold; simpl.
  destruct (statemachines w !! nd_Cid nd) as [d0|] eqn:Hfresh; simpl.
  { intros Hrun. simplify_eq; simpl.
    exists [CallCommP rt data; CallSignProposal addr dp; CallAsIpld cdp;
            CallBegin (nd_Cid nd) deal0].
    split; [by rewrite <- !app_assoc|right].
    use_Hleft d0; [done|done|repeat constructor]. }
  destruct (NewDealStream _ _) as [s|e]; simpl.
  2: { intros Hrun. simplify_eq; simpl.
       exists [CallCommP rt data; CallSignProposal addr dp; CallAsIpld cdp;
               CallBegin (nd_Cid nd) deal0;
               CallNewDealStream (spi_PeerID info)].
       split; [by rewrite <- !app_assoc|right].
       use_Hleft deal0; simpl;
         [apply lookup_insert_eq| |repeat constructor].
       intros _. by exists StorageDealUnknown. }
  destruct (Send _ _ _ _) as [serr wE] eqn:HSend.
  apply Send_inv in HSend.
  destruct serr as [e|]; simpl.
  { intros Hrun. simplify_eq; simpl.
    exists [CallCommP rt data; CallSignProposal addr dp; CallAsIpld cdp;
            CallBegin (nd_Cid nd) deal0;
            CallNewDealStream (spi_PeerID info);
            CallSend (nd_Cid nd) ClientEventOpen].
    split; [by rewrite <- !app_assoc|right].
    use_Hleft deal0; simpl;
      [apply lookup_insert_eq| |repeat constructor].
    intros _. by exists StorageDealUnknown. }
  destruct HSend as (d & desc & new & Hd & _ & _ & Hsm & Hcalls).
  simpl in Hd, Hsm, Hcalls. rewrite lookup_insert_eq in Hd.
  injection Hd as <-.
  intros [= <- _ <-]; simpl.
  exists ([CallCommP rt data; CallSignProposal addr dp; CallAsIpld cdp;
           CallBegin (nd_Cid nd) deal0;
           CallNewDealStream (spi_PeerID info);
           CallSend (nd_Cid nd) ClientEventOpen]
            ++ new
            ++ [CallAddPeer (Root data)
                  {| rp_Address := spi_Address info;
                     rp_ID := spi_PeerID info |}]).
  split.
  - rewrite Hcalls. by rewrite <- !app_assoc.
  - right. use_Hleft (set_State (ev_to desc) deal0); simpl.
    + rewrite Hsm. apply lookup_insert_eq.
    + intros _. by exists (ev_to desc).
    + repeat constructor.
Qed.

End ClientProperties.

Lemma GetAsk_panics_without_payload_witness :
  let c := client_examples.client_rejecting client_examples.ask_no_payload in
  storageimpl.ValidateAskSignature (storageimpl.node c)
    client_examples.ask_no_payload
  = Some (errors_New "bad signature")
  ∧ (storageimpl.GetAsk c client_examples.info1 client_examples.world1).1
    = storageimpl.Panics
  ∧ ∀ r,
      (storageimpl.GetAsk c client_examples.info1 client_examples.world1).1
      ≠ storageimpl.Returns r.
Proof.
  intros c. split; [reflexivity|].
  destruct
    (GetAsk_panics_without_payload c client_examples.info1
       client_examples.world1
       (client_examples.askStream client_examples.ask_no_payload)
       {| storageimpl.resp_Ask := Some client_examples.ask_no_payload |}
       client_examples.ask_no_payload eq_refl eq_refl eq_refl eq_refl
       eq_refl)
    as (Hpanic & Hnever & _).
  exact (conj Hpanic Hnever).
Defined.

Lemma GetAsk_rejects_witness :
  (∃ e,
     (storageimpl.GetAsk
        (client_examples.client_with client_examples.ask_other_miner)
        client_examples.info1 client_examples.world1).1
     = storageimpl.Returns (None, Some e)
     ∧ (e = errors_New "got back ask for wrong miner"
        ∨ e = errors_New "ask was not properly signed"))
  ∧ storageimpl.statemachines
      (storageimpl.GetAsk
         (client_examples.client_with client_examples.ask_other_miner)
         client_examples.info1 client_examples.world1).2
    = storageimpl.statemachines client_examples.world1
  ∧ storageimpl.conns
      (storageimpl.GetAsk
         (client_examples.client_with client_examples.ask_other_miner)
         client_examples.info1 client_examples.world1).2
    = storageimpl.conns client_examples.world1.
Proof.
  apply (GetAsk_rejects
           (client_examples.client_with client_examples.ask_other_miner)
           client_examples.info1 client_examples.world1
           (client_examples.askStream client_examples.ask_other_miner)
           {| storageimpl.resp_Ask := Some client_examples.ask_other_miner |}
           client_examples.ask_other_miner
           {| storageimpl.Miner := "t0999" |});
    try reflexivity.
  left. vm_compute. discriminate.
Defined.

Lemma ProposeStorageDeal_proposal_terms_witness :
  ∃ dealProposal,
    market.ProviderCollateral dealProposal = 127
    ∧ market.ClientCollateral dealProposal = 0
    ∧ market.PieceSize dealProposal = 128
    ∧ ∃ rest,
        storageimpl.calls
          (storageimpl.ProposeStorageDeal client_examples.ClientEvents1
             client_examples.CommP1 client_examples.Padded1
             client_examples.AsIpld1
             (client_examples.client_with client_examples.ask_ok)
             "t0100" client_examples.info1 client_examples.data1
             10 20 5 7 1 client_examples.world0).2
        = storageimpl.CallCommP 1 client_examples.data1
            :: storageimpl.CallSignProposal "t0100" dealProposal :: rest.
Proof.
  destruct
    (ProposeStorageDeal_proposal_terms client_examples.ClientEvents1
       client_examples.CommP1 client_examples.Padded1
       client_examples.AsIpld1
       (client_examples.client_with client_examples.ask_ok)
       "t0100" client_examples.info1 client_examples.data1
       10 20 5 7 1 client_examples.world0 "commP" 127 eq_refl)
    as (dp & rest & Hcalls & Hprovider & _ & Hclient & Hsize & _).
  exists dp. split; [exact Hprovider|]. split; [exact Hclient|].
  split; [exact Hsize|]. exists rest. exact Hcalls.
Defined.

Lemma ProposeStorageDeal_opens_in_order_witness :
  ∃ wS,
    storageimpl.conns wS !! "proposal-1" = Some client_examples.stream2
    ∧ is_Some (storageimpl.statemachines wS !! "proposal-1")
    ∧ (storageimpl.Send client_examples.ClientEvents1 "proposal-1"
         storageimpl.ClientEventOpen wS).1 = None.
Proof.
  pose (run :=
          storageimpl.ProposeStorageDeal client_examples.ClientEvents1
            client_examples.CommP1 client_examples.Padded1
            client_examples.AsIpld1
            (client_examples.client_with client_examples.ask_ok)
            "t0100" client_examples.info1 client_examples.data1
            10 20 5 7 1 client_examples.world0).
  destruct
    (ProposeStorageDeal_opens_in_order client_examples.ClientEvents1
       client_examples.CommP1 client_examples.Padded1
       client_examples.AsIpld1
       (client_examples.client_with client_examples.ask_ok)
       "t0100" client_examples.info1 client_examples.data1
       10 20 5 7 1 client_examples.world0 run.2 run.1.1 eq_refl)
    as (id & deal & s & dp & cdp & wS & wE
        & Hres & _ & Hs & _ & Hsm & Hconns & _ & _ & HSend & _).
  vm_compute in Hres. injection Hres as <-.
  vm_compute in Hs. injection Hs as <-.
  exists wS. split; [|split].
  - rewrite Hconns. apply lookup_insert_eq.
  - rewrite Hsm. exists deal. apply lookup_insert_eq.
  - by rewrite HSend.
Defined.

Lemma ProposeStorageDeal_failure_trace_witness :
  let w := client_examples.world0 in
  let run :=
    storageimpl.ProposeStorageDeal client_examples.ClientEvents1
      client_examples.CommP1 client_examples.Padded1
      client_examples.AsIpld1 client_examples.client_no_signature
      "t0100" client_examples.info1 client_examples.data1
      10 20 5 7 1 w in
  run.1 = (None,
           Some (errors_Wrap "signing deal proposal failed: %w"
                   (errors_New "no key")))
  ∧ ∃ new,
      storageimpl.calls run.2 = storageimpl.calls w ++ new
      ∧ (((∀ id deal, storageimpl.CallBegin id deal ∉ new)
          ∧ run.1.1 = None
          ∧ storageimpl.statemachines run.2 = storageimpl.statemachines w
          ∧ storageimpl.conns run.2 = storageimpl.conns w)
         ∨ (∃ id deal d,
              storageimpl.CallBegin id deal ∈ new
              ∧ storageimpl.statemachines run.2 !! id = Some d
              ∧ (storageimpl.GetInProgressDeal id run.2).1 = (d, None)
              ∧ d ∈ (storageimpl.ListInProgressDeals run.2).1.1
              ∧ (storageimpl.statemachines w !! id = None →
                 ∃ st, d = storageimpl.set_State st deal))).
Proof.
  intros w run. split; [reflexivity|].
  exact
    (ProposeStorageDeal_failure_trace client_examples.ClientEvents1
       client_examples.CommP1 client_examples.Padded1
       client_examples.AsIpld1 client_examples.client_no_signature
       "t0100" client_examples.info1 client_examples.data1
       10 20 5 7 1 w run.2 run.1.1
       (errors_Wrap "signing deal proposal failed: %w" (errors_New "no key"))
       eq_refl).
Defined.

(** * Further properties of the piece preparation pipeline *)

Section PipelineOutcomes.

Import pieceio.

Context {Node Blockstore OnNewCarBlockFunc : Type}.
Variable padreader_New : Reader -> Z -> Reader * UnpaddedPieceSize.
Variable GeneratePieceCIDFromFile :
  RegisteredSealProof -> Reader -> UnpaddedPieceSize -> result Cid.
Variable os : OSPipe.

Local Abbreviation commit :=
  (GeneratePieceCommitment padreader_New GeneratePieceCIDFromFile).
Local Abbreviation streaming :=
  (@pieceIO_GeneratePieceCommitment Node Blockstore OnNewCarBlockFunc
     padreader_New GeneratePieceCIDFromFile os).
Local Abbreviation disk :=
  (@GeneratePieceCommitmentToFile Node Blockstore OnNewCarBlockFunc
     padreader_New GeneratePieceCIDFromFile).

(** X1.  Streaming mode returns no error exactly when all of its steps went
    well: the archive was prepared, the pipe opened, the dump and the close
    of the write end succeeded, the close of the read end succeeded, and the
    commitment over the dumped bytes with the announced size succeeded; the
    commitment and size returned are then the ones of that computation. *)
Theorem streaming_succeeds_iff
    (pio : pieceIO) (rt : RegisteredSealProof) (payloadCid : Cid)
    (selector : Node) :
  let run := streaming pio rt payloadCid selector in
  (run.1.2 = None
   ↔ ∃ preparedCar,
       PrepareCar (carIO pio) (bs pio) payloadCid selector = Ok preparedCar
       ∧ Pipe_err os = None
       ∧ (Dump preparedCar).2 = None
       ∧ w_Close os = None
       ∧ r_Close os = None
       ∧ (commit rt (Dump preparedCar).1 (uint64 (Size preparedCar))).2
         = None)
  ∧ (run.1.2 = None →
     ∀ preparedCar,
       PrepareCar (carIO pio) (bs pio) payloadCid selector = Ok preparedCar →
       commit rt (Dump preparedCar).1 (uint64 (Size preparedCar))
       = (run.1.1.1, run.1.1.2, None)).
Proof.
  unfold pieceIO_GeneratePieceCommitment; simpl.
  destruct (PrepareCar _ _ _ _) as [preparedCar|e]; simpl.
  2: { split; [|done]. split; [done|]. by intros (pc & ? & _). }
  destruct (Pipe_err os) as [e|] eqn:Hpipe; simpl.
  { split; [|done]. split; [done|]. by intros (pc & _ & ? & _). }
  pose proof (producer_ok_iff padreader_New os preparedCar) as Hok.
  pose proof (producer_written os preparedCar) as Hw.
  destruct (producer os preparedCar) as [r werr]; simpl in Hok, Hw; subst r.
  destruct (commit rt _ _) as [[c sz] [e|]] eqn:Hcommit; simpl.
  { split; [|done]. split; [done|].
    intros (pc & [= <-] & _ & _ & _ & _ & Hc).
    rewrite Hcommit in Hc. done. }
  destruct (r_Close os) as [e|]; simpl.
  { split; [|done]. split; [done|]. by intros (pc & _ & _ & _ & _ & ? & _). }
  destruct werr as [e|]; simpl.
  - split; [|done]. split; [done|].
    intros (pc & [= <-] & _ & Hd & Hc & _).
    assert (Some e = None) by (apply Hok; done). done.
  - split.
    + split; [|done]. intros _. exists preparedCar.
      rewrite Hcommit. split_and!; try done; by apply Hok.
    + intros _ pc [= <-]. done.
Qed.

(** X2.  Streaming mode never returns a commitment or a size together with an
    error: on every failure the results are [cid.Undef] and [0]. *)
Theorem streaming_failure_zero_results
    (pio : pieceIO) (rt : RegisteredSealProof) (payloadCid : Cid)
    (selector : Node) :
  (streaming pio rt payloadCid selector).1.2 ≠ None →
  (streaming pio rt payloadCid selector).1.1 = (cid_Undef, 0).
Proof.
  unfold pieceIO_GeneratePieceCommitment; simpl.
  destruct (PrepareCar _ _ _ _) as [preparedCar|e]; simpl; [|done].
  destruct (Pipe_err os) as [e|]; simpl; [done|].
  destruct (producer os preparedCar) as [r werr].
  destruct (commit rt _ _) as [[c sz] [e|]]; simpl; [done|].
  destruct (r_Close os) as [e|]; simpl; [done|].
  by destruct werr as [e|]; simpl.
Qed.

(** X3.  Streaming mode starts the producer exactly when the archive was
    prepared and the pipe opened; from there on every exit, also a failing
    one, has run the consumer and closed the read end, and the only thing
    that may follow the close is the wait for the producer. *)
Theorem streaming_pipe_discipline
    (pio : pieceIO) (rt : RegisteredSealProof) (payloadCid : Cid)
    (selector : Node) :
  let steps := (streaming pio rt payloadCid selector).2 in
  (StepGo ∈ steps
   ↔ ∃ preparedCar,
       PrepareCar (carIO pio) (bs pio) payloadCid selector = Ok preparedCar
       ∧ Pipe_err os = None)
  ∧ (StepGo ∈ steps →
     ∃ rest,
       steps = [StepPrepare; StepPipe; StepGo; StepCommit; StepCloseRead]
                 ++ rest
       ∧ (rest = [] ∨ rest = [StepWait])).
Proof.
  unfold pieceIO_GeneratePieceCommitment; simpl.
  destruct (PrepareCar _ _ _ _) as [preparedCar|e]; simpl.
  2: { split; [split|]; [solve_not_elem|by intros (pc & ? & _)
                          |solve_not_elem]. }
  destruct (Pipe_err os) as [e|]; simpl.
  { split; [split|]; [solve_not_elem|by intros (pc & _ & ? )
                      |solve_not_elem]. }
  destruct (producer os preparedCar) as [r werr].
  destruct (commit rt _ _) as [[c sz] [e|]]; simpl.
  { split; [split; [eauto|intros _; repeat constructor]|].
    intros _. exists []. by split; [|left]. }
  destruct (r_Close os) as [e|]; simpl.
  { split; [split; [eauto|intros _; repeat constructor]|].
    intros _. exists []. by split; [|left]. }
  destruct werr as [e|]; simpl.
  - split; [split; [eauto|intros _; repeat constructor]|].
    intros _. exists [StepWait]. by split; [|right].
  - split; [split; [eauto|intros _; repeat constructor]|].
    intros _. exists [StepWait]. by split; [|right].
Qed.

(** X4.  Disk-buffered mode returns no error exactly when the temporary file
    was created, the archive written, the file rewound, and the commitment
    over the written bytes, with their number as the size, succeeded; it
    then returns that commitment and size and the path of the file. *)
Theorem disk_succeeds_iff
    (pio : pieceIOWithStore) (rt : RegisteredSealProof) (payloadCid : Cid)
    (selector : Node) (userOnNewCarBlocks : list OnNewCarBlockFunc) :
  let run := disk pio rt payloadCid selector userOnNewCarBlocks in
  let written :=
    WriteCar (carIO (pio_pieceIO pio)) (bs (pio_pieceIO pio)) payloadCid
      selector userOnNewCarBlocks in
  (run.1.2 = None
   ↔ ∃ h,
       CreateTemp (store pio) = Ok h
       ∧ written.2 = None
       ∧ f_Seek_err h = None
       ∧ (commit rt written.1 (uint64 (Z.of_nat (length written.1)))).2
         = None)
  ∧ (run.1.2 = None →
     ∀ h,
       CreateTemp (store pio) = Ok h →
       commit rt written.1 (uint64 (Z.of_nat (length written.1)))
       = (run.1.1.1.1, run.1.1.2, None)
       ∧ run.1.1.1.2 = f_Path h).
Proof.
  unfold GeneratePieceCommitmentToFile, File_Seek_start; simpl.
  destruct (CreateTemp (store pio)) as [h|e]; simpl.
  2: { split; [|done]. split; [done|]. by intros (h & ? & _). }
  destruct (WriteCar _ _ _ _ _) as [bytes [e|]]; simpl.
  { split; [|done]. split; [done|]. by intros (h' & _ & ? & _). }
  destruct (f_Seek_err h) as [e|] eqn:Hseek; simpl.
  { split; [|done]. split; [done|]. intros (h' & [= <-] & _ & Hs & _).
    rewrite Hseek in Hs. done. }
  unfold File_Reader, File_Size; simpl.
  change (drop 0 bytes) with bytes.
  destruct (commit rt bytes _) as [[c sz] [e|]] eqn:Hcommit; simpl.
  - split; [|done]. split; [done|]. by intros (h' & _ & _ & _ & ?).
  - split.
    + split; [|done]. intros _. by exists h.
    + by intros _ h' [= <-].
Qed.

(** X5.  When the temporary file cannot be created, disk-buffered mode
    returns that error with the zero results and does nothing to the store.
    Otherwise everything it does is done to the file it created, which it
    closes exactly once; after the close nothing follows but, on failure,
    the delete. *)
Theorem disk_touches_its_file_only
    (pio : pieceIOWithStore) (rt : RegisteredSealProof) (payloadCid : Cid)
    (selector : Node) (userOnNewCarBlocks : list OnNewCarBlockFunc) :
  let run := disk pio rt payloadCid selector userOnNewCarBlocks in
  (∀ e, CreateTemp (store pio) = Err e →
     run = ((cid_Undef, EmptyString, 0, Some e), []))
  ∧ (∀ h, CreateTemp (store pio) = Ok h →
       Forall (λ op, StoreOp_path op = f_Path h) run.2
       ∧ ∃ before after,
           run.2 = before ++ OpClose (f_Path h) :: after
           ∧ (OpClose (f_Path h) ∉ before)
           ∧ (OpDelete (f_Path h) ∉ before)
           ∧ (after = [] ∧ run.1.2 = None
              ∨ after = [OpDelete (f_Path h)] ∧ run.1.2 ≠ None)).
Proof.
  unfold GeneratePieceCommitmentToFile, cleanup, File_Seek_start; simpl.
  destruct (CreateTemp (store pio)) as [h|e]; simpl.
  2: { split; [by intros e' [= ->]|done]. }
  split; [done|]. intros h' [= <-].
  destruct (WriteCar _ _ _ _ _) as [bytes [e|]]; simpl.
  { split; [by repeat constructor|].
    exists [OpCreateTemp (f_Path h); OpWriteCar (f_Path h)],
      [OpDelete (f_Path h)].
    split_and!; [done|solve_not_elem..|by right]. }
  destruct (f_Seek_err h) as [e|]; simpl.
  { split; [by repeat constructor|].
    exists [OpCreateTemp (f_Path h); OpWriteCar (f_Path h);
            OpSeek (f_Path h)], [OpDelete (f_Path h)].
    split_and!; [done|solve_not_elem..|by right]. }
  destruct (commit rt _ _) as [[c sz] [e|]]; simpl.
  - split; [by repeat constructor|].
    exists [OpCreateTemp (f_Path h); OpWriteCar (f_Path h);
            OpSeek (f_Path h); OpCommit (f_Path h)], [OpDelete (f_Path h)].
    split_and!; [done|solve_not_elem..|by right].
  - split; [by repeat constructor|].
    exists [OpCreateTemp (f_Path h); OpWriteCar (f_Path h);
            OpSeek (f_Path h); OpCommit (f_Path h)], [].
    split_and!; [done|solve_not_elem..|by left].
Qed.

End PipelineOutcomes.

Lemma streaming_failure_zero_results_witness :
  (pieceio.pieceIO_GeneratePieceCommitment examples.pad1 examples.commit1
     examples.os1 (pieceio.pio_pieceIO examples.pio_fails) 1 "root" tt).1.1
  = (cid_Undef, 0).
Proof.
  apply (streaming_failure_zero_results examples.pad1 examples.commit1
           examples.os1 (pieceio.pio_pieceIO examples.pio_fails) 1 "root" tt).
  vm_compute. discriminate.
Defined.

(** * Further properties of the registry and of the client *)

Section ClientOutcomes.

Import storageimpl.

Context {PieceIO : Type}.
Variable ClientEvents : ClientEvent -> option EventDesc.
Variable CommP :
  PieceIO -> RegisteredProof -> DataRef ->
  Cid * UnpaddedPieceSize * option error.
Variable Padded : UnpaddedPieceSize -> PaddedPieceSize.
Variable AsIpld : market.ClientDealProposal -> result IpldNode.

Local Abbreviation propose :=
  (@ProposeStorageDeal PieceIO ClientEvents CommP Padded AsIpld).

Local Arguments Send : simpl never.
Local Arguments Begin : simpl never.

(** X6.  Closing a stream twice is closing it once: the second [CloseStream]
    for the same identifier returns no error, closes nothing and changes
    nothing. *)
Theorem CloseStream_twice (id : Cid) (w : World) :
  CloseStream id (CloseStream id w).2 = (None, (CloseStream id w).2).
Proof.
  rewrite (CloseStream_unfold id (CloseStream id w).2).
  rewrite (CloseStream_unfold id w).
  destruct (conns w !! id) as [s|] eqn:Hid; simpl.
  - by rewrite lookup_delete_eq.
  - by rewrite Hid.
Qed.

(** A handler can take streams out of the registry, never put one in. *)
Lemma run_handler_conns (p : EnvProg) (w : World) (id : Cid) :
  is_Some (conns (run_handler p w).2 !! id) → is_Some (conns w !! id).
Proof.
  revert w. induction p as [|id' k IH|id' k IH]; intros w; simpl; [done| |].
  - unfold mbind, M_bind. rewrite DealStream_spec. apply IH.
  - unfold mbind, M_bind. rewrite CloseStream_unfold.
    destruct (conns w !! id') as [s|]; [|apply IH].
    intros Hs. apply IH in Hs. simpl in Hs.
    destruct (decide (id' = id)) as [->|Hne].
    + rewrite lookup_delete_eq in Hs. by destruct Hs.
    + by rewrite lookup_delete_ne in Hs.
Qed.

Lemma Send_conns (id : Cid) (ev : ClientEvent) (w w' : World) err (id' : Cid) :
  Send ClientEvents id ev w = (err, w') →
  is_Some (conns w' !! id') → is_Some (conns w !! id').
Proof.
  unfold Send, mbind, M_bind, mret, M_ret, get_statemachines,
    set_statemachines; simpl.
  destruct (statemachines w !! id) as [d|]; [|by intros [= _ <-]].
  destruct (ClientEvents ev) as [desc|]; [|by intros [= _ <-]].
  destruct (decide _); [|by intros [= _ <-]].
  pose proof (run_handler_conns (ev_handler desc d) w id') as Hh.
  destruct (run_handler (ev_handler desc d) w) as [[] w1].
  simpl in *. by intros [= _ <-].
Qed.

Local Ltac unfold_propose :=
  unfold ProposeStorageDeal, mbind, M_bind, mret, M_ret, call, conns_store,
    get_conns, set_conns; simpl.

(** The runs of [ProposeStorageDeal], one goal per exit, in this order: the
    failure of [CommP], the refusal of [Begin], the failure and the success
    of [Send], and the failures of [NewDealStream], [AsIpld] and
    [SignProposal]. *)
Local Ltac propose_paths :=
  unfold_propose;
  destruct (CommP _ _ _) as [[commP pieceSize] [e|]]; simpl;
  [|destruct (SignProposal _ _ _) as [cdp|e]; simpl;
    [destruct (AsIpld cdp) as [nd|e]; simpl;
     [rewrite Begin_unfold; simpl;
      destruct (statemachines _ !! nd_Cid nd) as [d0|] eqn:Hfresh; simpl;
      [|destruct (NewDealStream _ _) as [s|e]; simpl;
        [destruct (Send _ _ _ _) as [[e|] wE] eqn:HSend; simpl;
         [apply Send_inv in HSend; subst wE; simpl
         |pose proof (λ id', Send_conns _ _ _ _ _ id' HSend) as HSconns;
          pose proof HSend as HSendEq;
          apply Send_inv in HSend;
          destruct HSend as (d1 & desc & newS & Hd1 & Hdesc & Hfrom & Hsm
                             & Hcalls);
          simpl in Hd1, Hsm, Hcalls, HSconns;
          rewrite lookup_insert_eq in Hd1; injection Hd1 as <-]
        |]]
     |]
    |]].

(** X7.  [ProposeStorageDeal] never changes and never removes the record of
    a deal the engine tracked before the call, whatever the outcome. *)
Theorem ProposeStorageDeal_keeps_existing_records
    (c : @Client PieceIO) (addr : Address) (info : StorageProviderInfo)
    (data : DataRef) (startEpoch endEpoch : ChainEpoch)
    (price collateral : TokenAmount) (rt : RegisteredProof) (w : World)
    (id' : Cid) (d : ClientDeal) :
  statemachines w !! id' = Some d →
  statemachines
    (propose c addr info data startEpoch endEpoch price collateral rt w).2
    !! id' = Some d.
Proof.
  intros Hd. propose_paths; try done.
  - rewrite lookup_insert_ne; [done|]. intros Heq. congruence.
  - rewrite Hsm, !lookup_insert_ne; [done|intros Heq; congruence..].
  - rewrite lookup_insert_ne; [done|]. intros Heq. congruence.
Qed.

(** The proposal [ProposeStorageDeal] makes up from what [CommP] returned,
    the record it hands to [Begin], and the worlds in which it calls [Begin]
    and [Send], as the source builds them. *)
Local Abbreviation proposal_of c addr info data startEpoch endEpoch price rt :=
  {| market.PieceCID := (CommP (pio c) rt data).1.1;
     market.PieceSize := Padded (CommP (pio c) rt data).1.2;
     market.Client := addr;
     market.Provider := spi_Address info;
     market.StartEpoch := startEpoch;
     market.EndEpoch := endEpoch;
     market.StoragePricePerEpoch := price;
     market.ProviderCollateral :=
       NewTokenAmount (int64 (CommP (pio c) rt data).1.2);
     market.ClientCollateral := big_Zero |}.

Local Abbreviation deal_of info data cdp nd :=
  {| cd_ProposalCid := nd_Cid nd;
     cd_ClientDealProposal := cdp;
     cd_State := StorageDealUnknown;
     cd_Miner := spi_PeerID info;
     cd_MinerWorker := spi_Worker info;
     cd_DataRef := Some data |}.

Local Abbreviation world_at_Begin w addr info data rt dp cdp nd :=
  {| statemachines := statemachines w;
     conns := conns w;
     calls :=
       calls w
         ++ [CallCommP rt data; CallSignProposal addr dp; CallAsIpld cdp;
             CallBegin (nd_Cid nd) (deal_of info data cdp nd)] |}.

Local Abbreviation world_at_Send w addr info data rt dp cdp nd s :=
  {| statemachines :=
       <[nd_Cid nd := deal_of info data cdp nd]> (statemachines w);
     conns := <[nd_Cid nd := s]> (conns w);
     calls :=
       calls w
         ++ [CallCommP rt data; CallSignProposal addr dp; CallAsIpld cdp;
             CallBegin (nd_Cid nd) (deal_of info data cdp nd);
             CallNewDealStream (spi_PeerID info);
             CallSend (nd_Cid nd) ClientEventOpen] |}.

(** The calls of a run are kept as one list. *)
Local Ltac flatten_calls := rewrite <- ?app_assoc; simpl.

(** X8.  [ProposeStorageDeal] returns a result exactly when every step up to
    and including [Send] of the open event succeeded: [CommP], the signing
    of the proposal made up from it, [AsIpld], [Begin] on a new identifier,
    [NewDealStream], and [Send] in the world the steps before have built;
    the result is the identifier of the proposal, and the error beside it is
    what [discovery.AddPeer] returned, as it is, the last call made.
    Without a result the error is never [nil]: it is the error of the first
    step that failed, wrapped under the message of that step. *)
Theorem ProposeStorageDeal_result_or_error
    (c : @Client PieceIO) (addr : Address) (info : StorageProviderInfo)
    (data : DataRef) (startEpoch endEpoch : ChainEpoch)
    (price collateral : TokenAmount) (rt : RegisteredProof) (w : World) :
  let run :=
    propose c addr info data startEpoch endEpoch price collateral rt w in
  let peer :=
    {| rp_Address := spi_Address info; rp_ID := spi_PeerID info |} in
  let dp := proposal_of c addr info data startEpoch endEpoch price rt in
  (∀ r,
     run.1.1 = Some r
     ↔ ∃ cdp nd s wE,
         (CommP (pio c) rt data).2 = None
         ∧ SignProposal (node c) addr dp = Ok cdp
         ∧ AsIpld cdp = Ok nd
         ∧ statemachines w !! nd_Cid nd = None
         ∧ NewDealStream (net c) (spi_PeerID info) = Ok s
         ∧ Send ClientEvents (nd_Cid nd) ClientEventOpen
             (world_at_Send w addr info data rt dp cdp nd s)
           = (None, wE)
         ∧ r = {| res_ProposalCid := nd_Cid nd |})
  ∧ (∀ r, run.1.1 = Some r →
       run.1.2 = AddPeer (discovery c) (Root data) peer
       ∧ last (calls run.2) = Some (CallAddPeer (Root data) peer))
  ∧ (run.1.1 = None →
     (∃ e,
        (CommP (pio c) rt data).2 = Some e
        ∧ run.1.2 = Some (errors_Wrap "computing commP failed: %w" e))
     ∨ (∃ e,
          (CommP (pio c) rt data).2 = None
          ∧ SignProposal (node c) addr dp = Err e
          ∧ run.1.2
            = Some (errors_Wrap "signing deal proposal failed: %w" e))
     ∨ (∃ cdp e,
          (CommP (pio c) rt data).2 = None
          ∧ SignProposal (node c) addr dp = Ok cdp
          ∧ AsIpld cdp = Err e
          ∧ run.1.2
            = Some (errors_Wrap "getting proposal node failed: %w" e))
     ∨ (∃ cdp nd e,
          (CommP (pio c) rt data).2 = None
          ∧ SignProposal (node c) addr dp = Ok cdp
          ∧ AsIpld cdp = Ok nd
          ∧ (Begin (nd_Cid nd) (deal_of info data cdp nd)
               (world_at_Begin w addr info data rt dp cdp nd)).1 = Some e
          ∧ run.1.2 = Some (errors_Wrap "setting up deal tracking: %w" e))
     ∨ (∃ cdp nd e,
          (CommP (pio c) rt data).2 = None
          ∧ SignProposal (node c) addr dp = Ok cdp
          ∧ AsIpld cdp = Ok nd
          ∧ statemachines w !! nd_Cid nd = None
          ∧ NewDealStream (net c) (spi_PeerID info) = Err e
          ∧ run.1.2
            = Some (errors_Wrap "connecting to storage provider failed: %w"
                      e))
     ∨ (∃ cdp nd s e wE,
          (CommP (pio c) rt data).2 = None
          ∧ SignProposal (node c) addr dp = Ok cdp
          ∧ AsIpld cdp = Ok nd
          ∧ statemachines w !! nd_Cid nd = None
          ∧ NewDealStream (net c) (spi_PeerID info) = Ok s
          ∧ Send ClientEvents (nd_Cid nd) ClientEventOpen
              (world_at_Send w addr info data rt dp cdp nd s)
            = (Some e, wE)
          ∧ run.1.2
            = Some (errors_Wrap "initializing state machine: %w" e))).
Proof.
  unfold_propose.
  destruct (CommP (pio c) rt data) as [[commP pieceSize] [e|]]; simpl.
  { split_and!; [|done|].
    - intros r. split; [done|]. by intros (? & ? & ? & ? & ? & _).
    - intros _. left. by exists e. }
  destruct (SignProposal _ _ _) as [cdp|e]; simpl.
  2: { split_and!; [|done|].
       - intros r. split; [done|]. by intros (? & ? & ? & ? & _ & ? & _).
       - intros _. right; left. by exists e. }
  destruct (AsIpld cdp) as [nd|e] eqn:HAs; simpl.
  2: { split_and!; [|done|].
       - intros r. split; [done|].
         intros (cdp' & nd' & ? & ? & _ & [= <-] & Ha & _). congruence.
       - intros _. right; right; left. by exists cdp, e. }
  rewrite !Begin_unfold; simpl.
  destruct (statemachines w !! nd_Cid nd) as [d0|] eqn:Hfresh; simpl.
  { split_and!; [|done|].
    - intros r. split; [done|].
      intros (cdp' & nd' & ? & ? & _ & [= <-] & Ha & Hf & _).
      rewrite HAs in Ha. injection Ha as <-. congruence.
    - intros _. do 3 right; left.
      exists cdp, nd, (errors_New "already tracking identifier").
      split_and!; try done. rewrite Begin_unfold; simpl. by rewrite Hfresh. }
  destruct (NewDealStream _ _) as [s|e]; simpl.
  2: { split_and!; [|done|].
       - intros r. split; [done|].
         by intros (cdp' & nd' & ? & ? & _ & _ & _ & _ & ? & _).
       - intros _. do 4 right; left. by exists cdp, nd, e. }
  flatten_calls.
  destruct (Send _ _ _ _) as [[e|] wE] eqn:HSend; simpl.
  { split_and!; [|done|].
    - intros r. split; [done|].
      intros (cdp' & nd' & s' & wE' & _ & [= <-] & Ha & _ & [= <-] & HS & _).
      rewrite HAs in Ha. injection Ha as <-. congruence.
    - intros _. do 5 right. by exists cdp, nd, s, e, wE. }
  split_and!.
  - intros r. split.
    + intros [= <-]. by exists cdp, nd, s, wE.
    + intros (cdp' & nd' & s' & wE' & _ & [= <-] & Ha & _ & [= <-] & _ & ->).
      rewrite HAs in Ha. by injection Ha as <-.
  - intros r _. split; [done|]. by rewrite last_snoc.
  - done.
Qed.

(** X9.  A call of [ProposeStorageDeal] that returns no result closes no
    stream and tells the discovery store nothing.  It leaves the registry as
    it was, except when sending the open event failed: the stream that
    [NewDealStream] returned then stays in the registry, under the
    identifier of the node [AsIpld] made of the signed proposal. *)
Theorem ProposeStorageDeal_failure_leaves_streams
    (c : @Client PieceIO) (addr : Address) (info : StorageProviderInfo)
    (data : DataRef) (startEpoch endEpoch : ChainEpoch)
    (price collateral : TokenAmount) (rt : RegisteredProof) (w : World) :
  let run :=
    propose c addr info data startEpoch endEpoch price collateral rt w in
  let dp := proposal_of c addr info data startEpoch endEpoch price rt in
  run.1.1 = None →
  ∃ new,
    calls run.2 = calls w ++ new
    ∧ (∀ s, CallStreamClose s ∉ new)
    ∧ (∀ root peer, CallAddPeer root peer ∉ new)
    ∧ ((conns run.2 = conns w
        ∧ ¬ ∃ cdp nd s,
              (CommP (pio c) rt data).2 = None
              ∧ SignProposal (node c) addr dp = Ok cdp
              ∧ AsIpld cdp = Ok nd
              ∧ statemachines w !! nd_Cid nd = None
              ∧ NewDealStream (net c) (spi_PeerID info) = Ok s)
       ∨ ∃ cdp nd s cause wE,
           (CommP (pio c) rt data).2 = None
           ∧ SignProposal (node c) addr dp = Ok cdp
           ∧ AsIpld cdp = Ok nd
           ∧ statemachines w !! nd_Cid nd = None
           ∧ NewDealStream (net c) (spi_PeerID info) = Ok s
           ∧ Send ClientEvents (nd_Cid nd) ClientEventOpen
               (world_at_Send w addr info data rt dp cdp nd s)
             = (Some cause, wE)
           ∧ run.1.2
             = Some (errors_Wrap "initializing state machine: %w" cause)
           ∧ conns run.2 = <[nd_Cid nd := s]> (conns w)
           ∧ conns run.2 !! nd_Cid nd = Some s
           ∧ statemachines run.2 !! nd_Cid nd
             = Some (deal_of info data cdp nd)).
Proof.
  unfold_propose.
  destruct (CommP (pio c) rt data) as [[commP pieceSize] [e|]]; simpl.
  { intros _. eexists [_].
    split_and!; [done|(intros; solve_not_elem)..|left].
    split; [done|]. by intros (? & ? & ? & ? & _). }
  destruct (SignProposal _ _ _) as [cdp|e]; simpl.
  2: { intros _. eexists [_; _]. flatten_calls.
       split_and!; [done|(intros; solve_not_elem)..|left].
       split; [done|]. by intros (? & ? & ? & _ & ? & _). }
  destruct (AsIpld cdp) as [nd|e] eqn:HAs; simpl.
  2: { intros _. eexists [_; _; _]. flatten_calls.
       split_and!; [done|(intros; solve_not_elem)..|left].
       split; [done|]. intros (cdp' & nd' & s' & _ & [= <-] & Ha & _).
       congruence. }
  rewrite Begin_unfold; simpl.
  destruct (statemachines w !! nd_Cid nd) as [d0|] eqn:Hfresh; simpl.
  { intros _. eexists [_; _; _; _]. flatten_calls.
    split_and!; [done|(intros; solve_not_elem)..|left].
    split; [done|]. intros (cdp' & nd' & s' & _ & [= <-] & Ha & Hf & _).
    rewrite HAs in Ha. injection Ha as <-. congruence. }
  destruct (NewDealStream _ _) as [s|e]; simpl.
  2: { intros _. eexists [_; _; _; _; _]. flatten_calls.
       split_and!; [done|(intros; solve_not_elem)..|left].
       split; [done|]. by intros (cdp' & nd' & s' & _ & _ & _ & _ & ?). }
  flatten_calls.
  destruct (Send _ _ _ _) as [[e|] wE] eqn:HSend; simpl; [|done].
  intros _. pose proof HSend as HSendEq.
  apply Send_inv in HSend. subst wE; simpl.
  eexists [_; _; _; _; _; _].
  split_and!; [done|(intros; solve_not_elem)..|right].
  eexists cdp, nd, s, e, _.
  split_and!; [done|done|done|done|done|exact HSendEq|done|done| |];
    apply lookup_insert_eq.
Qed.

(** X10.  After a call of [ProposeStorageDeal] that returned a result, the
    engine holds, under the identifier returned, the record of the deal: the
    proposal as the node signed it, the peer and the worker of the provider,
    the data reference, and the state the open event leads to from the
    unknown state. *)
Theorem ProposeStorageDeal_success_record
    (c : @Client PieceIO) (addr : Address) (info : StorageProviderInfo)
    (data : DataRef) (startEpoch endEpoch : ChainEpoch)
    (price collateral : TokenAmount) (rt : RegisteredProof) (w : World) r :
  let run :=
    propose c addr info data startEpoch endEpoch price collateral rt w in
  run.1.1 = Some r →
  ∃ dealProposal clientDealProposal desc,
    SignProposal (node c) addr dealProposal = Ok clientDealProposal
    ∧ ClientEvents ClientEventOpen = Some desc
    ∧ ev_from desc = StorageDealUnknown
    ∧ statemachines w !! res_ProposalCid r = None
    ∧ statemachines run.2 !! res_ProposalCid r
      = Some {| cd_ProposalCid := res_ProposalCid r;
                cd_ClientDealProposal := clientDealProposal;
                cd_State := ev_to desc;
                cd_Miner := spi_PeerID info;
                cd_MinerWorker := spi_Worker info;
                cd_DataRef := Some data |}.
Proof.
  unfold_propose.
  destruct (CommP _ _ _) as [[commP pieceSize] [e|]]; simpl; [done|].
  destruct (SignProposal _ _ _) as [cdp|e] eqn:Hsign; simpl; [|done].
  destruct (AsIpld cdp) as [nd|e]; simpl; [|done].
  rewrite Begin_unfold; simpl.
  destruct (statemachines _ !! nd_Cid nd) as [d0|] eqn:Hfresh; simpl;
    [done|].
  destruct (NewDealStream _ _) as [s|e]; simpl; [|done].
  destruct (Send _ _ _ _) as [[e|] wE] eqn:HSend; simpl; [done|].
  apply Send_inv in HSend.
  destruct HSend as (d1 & desc & newS & Hd1 & Hdesc & Hfrom & Hsm & _).
  simpl in Hd1, Hsm. rewrite lookup_insert_eq in Hd1.
  injection Hd1 as <-. intros [= <-]; simpl.
  eexists _, cdp, desc. split_and!; [exact Hsign|done|done|done|].
  rewrite Hsm. by rewrite lookup_insert_eq.
Qed.

(** The proposal [ProposeStorageDeal] hands to the signer, once [CommP]
    succeeded. *)
Lemma ProposeStorageDeal_signs
    (c : @Client PieceIO) (addr : Address) (info : StorageProviderInfo)
    (data : DataRef) (startEpoch endEpoch : ChainEpoch)
    (price collateral : TokenAmount) (rt : RegisteredProof) (w : World)
    commP pieceSize :
  CommP (pio c) rt data = (commP, pieceSize, None) →
  ∃ rest,
    calls (propose c addr info data startEpoch endEpoch price collateral rt
             w).2
    = calls w
        ++ CallCommP rt data
        :: CallSignProposal addr
             {| market.PieceCID := commP;
                market.PieceSize := Padded pieceSize;
                market.Client := addr;
                market.Provider := spi_Address info;
                market.StartEpoch := startEpoch;
                market.EndEpoch := endEpoch;
                market.StoragePricePerEpoch := price;
                market.ProviderCollateral := NewTokenAmount (int64 pieceSize);
                market.ClientCollateral := big_Zero |}
        :: rest.
Proof.
  intros HcommP. unfold_propose. rewrite HcommP; simpl.
  destruct (SignProposal _ _ _) as [cdp|e]; simpl.
  2: { eexists []. by rewrite <- !app_assoc. }
  destruct (AsIpld cdp) as [nd|e]; simpl.
  2: { eexists [_]. by rewrite <- !app_assoc. }
  rewrite Begin_unfold; simpl.
  destruct (statemachines w !! nd_Cid nd) as [d0|] eqn:Hfresh; simpl.
  { eexists [_; _]. by rewrite <- !app_assoc. }
  destruct (NewDealStream _ _) as [s|e]; simpl.
  2: { eexists [_; _; _]. by rewrite <- !app_assoc. }
  destruct (Send _ _ _ _) as [serr wE] eqn:HSend.
  apply Send_inv in HSend.
  destruct serr as [e|]; simpl.
  { subst wE; simpl. eexists [_; _; _; _]. by rewrite <- !app_assoc. }
  destruct HSend as (d & desc & new & _ & _ & _ & _ & Hcalls).
  rewrite Hcalls; simpl.
  eexists ([_; _; _; _] ++ new ++ [_]). by rewrite <- !app_assoc.
Qed.

(** The [int64] conversion of a [uint64] from [2^63] on wraps around. *)
Lemma int64_wraps (z : Z) : 2 ^ 63 ≤ z < 2 ^ 64 → int64 z = z - 2 ^ 64.
Proof.
  intros Hz. unfold int64.
  replace (z + 2 ^ 63) with ((z - 2 ^ 63) + 1 * 2 ^ 64) by lia.
  rewrite Z.mod_add by lia. rewrite Z.mod_small by lia. lia.
Qed.

(** X11.  The provider collateral goes through [int64]: for a piece size of
    [2^63] or more the proposal handed to the signer carries the negative
    collateral [pieceSize - 2^64]. *)
Theorem ProposeStorageDeal_collateral_wraps
    (c : @Client PieceIO) (addr : Address) (info : StorageProviderInfo)
    (data : DataRef) (startEpoch endEpoch : ChainEpoch)
    (price collateral : TokenAmount) (rt : RegisteredProof) (w : World)
    commP pieceSize :
  CommP (pio c) rt data = (commP, pieceSize, None) →
  2 ^ 63 ≤ pieceSize < 2 ^ 64 →
  ∃ dealProposal rest,
    calls (propose c addr info data startEpoch endEpoch price collateral rt
             w).2
    = calls w
        ++ CallCommP rt data :: CallSignProposal addr dealProposal :: rest
    ∧ market.ProviderCollateral dealProposal = pieceSize - 2 ^ 64
    ∧ market.ProviderCollateral dealProposal < 0.
Proof.
  intros HcommP Hsize.
  destruct (ProposeStorageDeal_signs c addr info data startEpoch endEpoch
              price collateral rt w commP pieceSize HcommP) as [rest Hcalls].
  eexists _, rest. split; [exact Hcalls|]. simpl.
  unfold NewTokenAmount. rewrite int64_wraps by done. lia.
Qed.

(** X12.  [GetAsk] returns an ask exactly when the stream opened, the request
    for the address of the provider went out, the response carried an ask
    made out to that address, and the chain node accepted its signature; the
    ask returned is the one of the response. *)
Theorem GetAsk_returns_ask_iff
    (c : @Client PieceIO) (info : StorageProviderInfo) (w : World)
    (ask : SignedStorageAsk) :
  (GetAsk c info w).1 = Returns (Some ask, None)
  ↔ ∃ s out a,
      NewAskStream (net c) (spi_PeerID info) = Ok s
      ∧ WriteAskRequest s {| req_Miner := spi_Address info |} = None
      ∧ ReadAskResponse s = Ok out
      ∧ resp_Ask out = Some ask
      ∧ ssa_Ask ask = Some a
      ∧ Miner a = spi_Address info
      ∧ ValidateAskSignature (node c) ask = None.
Proof.
  unfold GetAsk, mbind, M_bind, mret, M_ret, call; simpl.
  destruct (NewAskStream _ _) as [s|e]; simpl.
  2: { split; [done|]. by intros (s & out & a & ? & _). }
  destruct (WriteAskRequest s _) as [e|] eqn:Hwrite; simpl.
  { split; [done|]. intros (s' & out & a & [= <-] & Hw & _).
    rewrite Hwrite in Hw. done. }
  destruct (ReadAskResponse s) as [out|e] eqn:Hread; simpl.
  2: { split; [done|]. intros (s' & out & a & [= <-] & _ & Hr & _).
       rewrite Hread in Hr. done. }
  destruct (resp_Ask out) as [ask'|] eqn:Hask; simpl.
  2: { split; [done|]. intros (s' & out' & a & [= <-] & _ & Hr & Ho & _).
       rewrite Hread in Hr. injection Hr as <-. congruence. }
  destruct (ssa_Ask ask') as [a|] eqn:Ha; simpl.
  2: { split; [done|].
       intros (s' & out' & a & [= <-] & _ & Hr & Ho & Hi & _).
       rewrite Hread in Hr. injection Hr as <-. congruence. }
  destruct (decide _) as [Hne|Heq]; simpl.
  { split; [done|].
    intros (s' & out' & a' & [= <-] & _ & Hr & Ho & Hi & Hm & _).
    rewrite Hread in Hr. injection Hr as <-.
    assert (ask' = ask) as -> by congruence. congruence. }
  destruct (ValidateAskSignature _ _) as [e|] eqn:Hval; simpl.
  { split; [done|].
    intros (s' & out' & a' & [= <-] & _ & Hr & Ho & _ & _ & Hv).
    rewrite Hread in Hr. injection Hr as <-.
    assert (ask' = ask) as -> by congruence. congruence. }
  split.
  - intros [= <-]. exists s, out, a. split_and!; try done.
    by destruct (decide (Miner a = spi_Address info)); [|destruct Heq].
  - intros (s' & out' & a' & [= <-] & _ & Hr & Ho & _).
    rewrite Hread in Hr. injection Hr as <-. congruence.
Qed.

(** X13.  When [GetAsk] returns, it returns either an ask and no error, or no
    ask and an error.  The error of a transport failure (opening the stream,
    writing the request, reading the response) wraps its cause; the three
    rejections of a response (no ask, ask for another miner, signature not
    accepted) carry their message only, the error of the chain node is not
    passed on. *)
Theorem GetAsk_error_kinds
    (c : @Client PieceIO) (info : StorageProviderInfo) (w : World) r :
  (GetAsk c info w).1 = Returns r →
  (∃ ask, r = (Some ask, None))
  ∨ (∃ cause,
       r = (None,
            Some (errors_Wrap "failed to open stream to miner: %w" cause))
       ∧ NewAskStream (net c) (spi_PeerID info) = Err cause)
  ∨ (∃ s cause,
       NewAskStream (net c) (spi_PeerID info) = Ok s
       ∧ (r = (None,
               Some (errors_Wrap "failed to send ask request: %w" cause))
          ∧ WriteAskRequest s {| req_Miner := spi_Address info |}
            = Some cause
          ∨ r = (None,
                 Some (errors_Wrap "failed to read ask response: %w" cause))
            ∧ ReadAskResponse s = Err cause))
  ∨ r = (None, Some (errors_New "got no ask back"))
  ∨ r = (None, Some (errors_New "got back ask for wrong miner"))
  ∨ r = (None, Some (errors_New "ask was not properly signed")).
Proof.
  unfold GetAsk, mbind, M_bind, mret, M_ret, call; simpl.
  destruct (NewAskStream _ _) as [s|e]; simpl.
  2: { intros [= <-]. right; left. by exists e. }
  destruct (WriteAskRequest s _) as [e|] eqn:Hwrite; simpl.
  { intros [= <-]. right; right; left. exists s, e. split; [done|by left]. }
  destruct (ReadAskResponse s) as [out|e] eqn:Hread; simpl.
  2: { intros [= <-]. right; right; left. exists s, e.
       split; [done|by right]. }
  destruct (resp_Ask out) as [ask|]; simpl.
  2: { intros [= <-]. by do 3 right; left. }
  destruct (ssa_Ask ask) as [a|]; simpl; [|done].
  destruct (decide _); simpl.
  { intros [= <-]. by do 4 right; left. }
  destruct (ValidateAskSignature _ _) as [e|]; simpl.
  - intros [= <-]. by do 5 right.
  - intros [= <-]. left. by exists ask.
Qed.

(** X14.  [GetAsk] opens a stream to the peer of the provider asked and to no
    other, asks for the address of that provider, and lets the chain node
    validate only an ask made out to that address. *)
Theorem GetAsk_call_discipline
    (c : @Client PieceIO) (info : StorageProviderInfo) (w : World) :
  ∃ new,
    calls (GetAsk c info w).2 = calls w ++ new
    ∧ (∀ p, CallNewAskStream p ∈ new → p = spi_PeerID info)
    ∧ (∀ req, CallWriteAskRequest req ∈ new →
         req_Miner req = spi_Address info)
    ∧ (∀ ask, CallValidateAskSignature ask ∈ new →
         ∃ a, ssa_Ask ask = Some a ∧ Miner a = spi_Address info).
Proof.
  unfold GetAsk, mbind, M_bind, mret, M_ret, call; simpl.
  assert (∀ (l : list Call) (P : Call → Prop),
            Forall P l → ∀ x, x ∈ l → P x) as Hall.
  { intros l P Hl x Hx. by eapply Forall_forall in Hl. }
  pose (ok := λ x : Call,
          match x with
          | CallNewAskStream p => p = spi_PeerID info
          | CallWriteAskRequest req => req_Miner req = spi_Address info
          | CallValidateAskSignature ask =>
              ∃ a, ssa_Ask ask = Some a ∧ Miner a = spi_Address info
          | _ => True
          end).
  assert (∀ new : list Call,
            Forall ok new →
            (∀ p, CallNewAskStream p ∈ new → p = spi_PeerID info)
            ∧ (∀ req, CallWriteAskRequest req ∈ new →
                 req_Miner req = spi_Address info)
            ∧ (∀ ask, CallValidateAskSignature ask ∈ new →
                 ∃ a, ssa_Ask ask = Some a ∧ Miner a = spi_Address info))
    as Hok.
  { intros new Hnew. split_and!; intros x Hx;
      exact (Hall new ok Hnew _ Hx). }
  destruct (NewAskStream _ _) as [s|e]; simpl.
  2: { eexists [_]. split; [done|]. apply Hok. by repeat constructor. }
  destruct (WriteAskRequest s _) as [e|]; simpl.
  { eexists [_; _]. rewrite <- !app_assoc. split; [done|].
    apply Hok. by repeat constructor. }
  destruct (ReadAskResponse s) as [out|e]; simpl.
  2: { eexists [_; _; _]. rewrite <- !app_assoc. split; [done|].
       apply Hok. by repeat constructor. }
  destruct (resp_Ask out) as [ask|]; simpl.
  2: { eexists [_; _; _]. rewrite <- !app_assoc. split; [done|].
       apply Hok. by repeat constructor. }
  destruct (ssa_Ask ask) as [a|] eqn:Ha; simpl.
  2: { eexists [_; _; _]. rewrite <- !app_assoc. split; [done|].
       apply Hok. by repeat constructor. }
  destruct (decide _) as [Hne|Heq]; simpl.
  { eexists [_; _; _]. rewrite <- !app_assoc. split; [done|].
    apply Hok. by repeat constructor. }
  assert (Miner a = spi_Address info) as Hm.
  { by destruct (decide (Miner a = spi_Address info)); [|destruct Heq]. }
  destruct (ValidateAskSignature _ _) as [e|]; simpl.
  - eexists [_; _; _; _]. rewrite <- !app_assoc. split; [done|].
    apply Hok. repeat constructor; simpl; eauto.
  - eexists [_; _; _; _]. rewrite <- !app_assoc. split; [done|].
    apply Hok. repeat constructor; simpl; eauto.
Qed.

(** A stream that is in the registry when a handler starts is still there
    when it ends, unless the handler closed it. *)
Lemma run_handler_keeps_or_closes
    (p : EnvProg) (w : World) (id : Cid) (s0 : StorageDealStream) :
  conns w !! id = Some s0 →
  ∃ new,
    calls (run_handler p w).2 = calls w ++ new
    ∧ (conns (run_handler p w).2 !! id = Some s0
       ∨ CallStreamClose s0 ∈ new).
Proof.
  revert w. induction p as [|id' k IH|id' k IH]; intros w Hid; simpl.
  - exists []. rewrite app_nil_r. auto.
  - unfold mbind, M_bind. rewrite DealStream_spec. by apply IH.
  - unfold mbind, M_bind. rewrite CloseStream_unfold.
    destruct (conns w !! id') as [s|] eqn:Hid'; [|by apply IH].
    destruct (decide (id' = id)) as [->|Hne].
    + assert (s = s0) as -> by congruence.
      destruct (run_handler_frame (k (sds_Close s0))
                  {| statemachines := statemachines w;
                     conns := delete id (conns w);
                     calls := calls w ++ [CallStreamClose s0] |})
        as [_ [new Hcalls]].
      exists (CallStreamClose s0 :: new). split.
      * rewrite Hcalls; simpl. by rewrite <- app_assoc.
      * right. constructor.
    + destruct (IH (sds_Close s)
                  {| statemachines := statemachines w;
                     conns := delete id' (conns w);
                     calls := calls w ++ [CallStreamClose s] |})
        as [new [Hcalls Hkeep]].
      { simpl. by rewrite lookup_delete_ne. }
      exists (CallStreamClose s :: new). split.
      * rewrite Hcalls; simpl. by rewrite <- app_assoc.
      * destruct Hkeep as [?|?]; [by left|right]. by constructor.
Qed.

Lemma Send_keeps_or_closes
    (id : Cid) (ev : ClientEvent) (w w' : World) err
    (id' : Cid) (s0 : StorageDealStream) :
  Send ClientEvents id ev w = (err, w') →
  conns w !! id' = Some s0 →
  ∃ new,
    calls w' = calls w ++ new
    ∧ (conns w' !! id' = Some s0 ∨ CallStreamClose s0 ∈ new).
Proof.
  unfold Send, mbind, M_bind, mret, M_ret, get_statemachines,
    set_statemachines; simpl.
  intros Hrun Hid.
  assert (∃ new, calls w = calls w ++ new
                 ∧ (conns w !! id' = Some s0 ∨ CallStreamClose s0 ∈ new))
    as Hsame.
  { exists []. rewrite app_nil_r. auto. }
  destruct (statemachines w !! id) as [d|];
    [|by injection Hrun as _ <-].
  destruct (ClientEvents ev) as [desc|]; [|by injection Hrun as _ <-].
  destruct (decide _); [|by injection Hrun as _ <-].
  pose proof (run_handler_keeps_or_closes (ev_handler desc d) w id' s0 Hid)
    as Hh.
  destruct (run_handler (ev_handler desc d) w) as [[] w1].
  simpl in *. by injection Hrun as _ <-.
Qed.

(** [ProposeStorageDeal] keeps every stream of the registry with a deal of
    the engine. *)
Lemma ProposeStorageDeal_keeps_tracked
    (c : @Client PieceIO) (addr : Address) (info : StorageProviderInfo)
    (data : DataRef) (startEpoch endEpoch : ChainEpoch)
    (price collateral : TokenAmount) (rt : RegisteredProof) (w : World) :
  registry_tracked w →
  registry_tracked
    (propose c addr info data startEpoch endEpoch price collateral rt w).2.
Proof.
  unfold registry_tracked. intros Htracked.
  propose_paths; intros id Hid; try by apply Htracked.
  - destruct (decide (nd_Cid nd = id)) as [<-|Hne].
    + rewrite lookup_insert_eq. by eexists.
    + rewrite lookup_insert_ne in Hid by done.
      rewrite lookup_insert_ne by done. by apply Htracked.
  - apply HSconns in Hid. simpl in Hid. rewrite Hsm.
    destruct (decide (nd_Cid nd = id)) as [<-|Hne].
    + rewrite lookup_insert_eq. by eexists.
    + rewrite lookup_insert_ne in Hid by done.
      rewrite !lookup_insert_ne by done. by apply Htracked.
  - rewrite lookup_insert_is_Some. right.
    destruct (decide (nd_Cid nd = id)) as [<-|Hne]; [|by auto].
    apply Htracked in Hid. rewrite Hfresh in Hid. by destruct Hid.
Qed.

(** X15.  When every stream of the registry belongs to a tracked deal,
    [ProposeStorageDeal] drops no stream and replaces none: a stream that was
    in the registry before the call is in it, under the same identifier,
    afterwards, unless a handler closed it during the call. *)
Theorem ProposeStorageDeal_loses_no_stream
    (c : @Client PieceIO) (addr : Address) (info : StorageProviderInfo)
    (data : DataRef) (startEpoch endEpoch : ChainEpoch)
    (price collateral : TokenAmount) (rt : RegisteredProof) (w : World)
    (id : Cid) (s0 : StorageDealStream) :
  let run :=
    propose c addr info data startEpoch endEpoch price collateral rt w in
  registry_tracked w →
  conns w !! id = Some s0 →
  conns run.2 !! id = Some s0
  ∨ ∃ new, calls run.2 = calls w ++ new ∧ CallStreamClose s0 ∈ new.
Proof.
  intros run Htracked Hid. subst run.
  assert (∀ nd, statemachines w !! nd_Cid nd = None → nd_Cid nd ≠ id)
    as Hother.
  { intros nd Hfresh Heq. rewrite Heq in Hfresh.
    destruct (Htracked id) as [d Hd]; [by eexists|]. congruence. }
  propose_paths; try by left.
  - left. rewrite lookup_insert_ne; [done|by apply Hother].
  - destruct (Send_keeps_or_closes _ _ _ _ _ id s0 HSendEq)
      as [new [Hnew Hkeep]].
    { simpl. rewrite lookup_insert_ne; [done|by apply Hother]. }
    destruct Hkeep as [Hkeep|Hclosed]; [by left|right].
    simpl in Hnew. rewrite Hnew.
    eexists ([_; _; _; _; _; _] ++ new ++ [_]).
    split; [by rewrite <- !app_assoc|].
    rewrite !elem_of_app. auto.
Qed.

End ClientOutcomes.

Section ClientLifeProperties.

Import storageimpl.

Context {Node Blockstore OnNewCarBlockFunc Datastore DataTransfer : Type}.
Context {StorageDeal Balance : Type}.

Local Abbreviation PieceIO :=
  (@pieceio.pieceIO Node Blockstore OnNewCarBlockFunc).

Variable ClientEvents : ClientEvent -> option EventDesc.
Variable CommP :
  PieceIO -> RegisteredProof -> DataRef ->
  Cid * UnpaddedPieceSize * option error.
Variable Padded : UnpaddedPieceSize -> PaddedPieceSize.
Variable AsIpld : market.ClientDealProposal -> result IpldNode.
Variable NewCarIO : @pieceio.CarIO Node Blockstore OnNewCarBlockFunc.
Variable fsm_New : Datastore -> result (gmap Cid ClientDeal).

Local Abbreviation run_op :=
  (@run_client_op Node Blockstore OnNewCarBlockFunc ClientEvents CommP Padded
     AsIpld).
Local Abbreviation run_all :=
  (@run_client_ops Node Blockstore OnNewCarBlockFunc ClientEvents CommP
     Padded AsIpld).

(** Each operation keeps every stream of the registry with a deal of the
    engine. *)
Lemma run_client_op_keeps_tracked
    (c : @Client PieceIO) (op : ClientOp) (w : World) :
  registry_tracked w → registry_tracked (run_op c op w).
Proof.
  intros Htracked.
  destruct op as [info|addr info data startEpoch endEpoch price collateral rt
                  | |id|id|id]; simpl.
  - destruct (GetAsk_frame c info w) as [Hsm Hconns].
    intros id. rewrite Hsm, Hconns. apply Htracked.
  - by apply ProposeStorageDeal_keeps_tracked.
  - done.
  - unfold GetInProgressDeal, Group_Get, mbind, M_bind, mret, M_ret,
      get_statemachines; simpl.
    by destruct (statemachines w !! id).
  - by rewrite DealStream_spec.
  - rewrite CloseStream_unfold.
    destruct (conns w !! id) as [s|] eqn:Hid; simpl; [|done].
    intros id' Hid'; simpl in *.
    destruct (decide (id = id')) as [->|Hne].
    + rewrite lookup_delete_eq in Hid'. by destruct Hid'.
    + rewrite lookup_delete_ne in Hid' by done. by apply Htracked.
Qed.

Lemma run_client_ops_keeps_tracked
    (c : @Client PieceIO) (ops : list ClientOp) (w : World) :
  registry_tracked w → registry_tracked (run_all c ops w).
Proof.
  revert w. induction ops as [|op ops IH]; intros w Htracked; [done|].
  simpl. apply IH. by apply run_client_op_keeps_tracked.
Qed.

(** X16.  A client made by [NewClient] starts with an empty registry, so
    that [DealStream] finds no connection for any identifier; and whatever
    operations are run on it afterwards, every stream in its registry
    belongs to a deal the engine tracks. *)
Theorem NewClient_registry_tracked
    (net : StorageMarketNetwork) (bs : Blockstore)
    (dataTransfer : DataTransfer) (discovery : discovery_Local)
    (ds : Datastore) (scn : StorageClientNode)
    (c : @Client PieceIO) (w0 : World) (ops : list ClientOp) :
  NewClient NewCarIO fsm_New net bs dataTransfer discovery ds scn
  = (Some (c, w0), None) →
  (∀ id, (DealStream id w0).1
         = (None, Some (errors_New "no connection to provider")))
  ∧ registry_tracked (run_all c ops w0).
Proof.
  unfold NewClient. destruct (fsm_New ds) as [g|e]; [|done].
  intros [= <- <-]. split.
  - intros id. rewrite DealStream_spec; simpl. by rewrite lookup_empty.
  - apply run_client_ops_keeps_tracked. intros id; simpl.
    rewrite lookup_empty. by intros [? ?].
Qed.

(** What the goroutine of [ListProviders] sends from round [i] on. *)
Lemma send_providers_take
    (ctx_done : nat → bool) (providers : list StorageProviderInfo) (i : nat) :
  ∃ n : nat,
    send_providers ctx_done i providers = take n providers
    ∧ (n ≤ length providers)%nat
    ∧ (∀ j : nat, (j < n)%nat → ctx_done (i + j)%nat = false)
    ∧ ((n < length providers)%nat → ctx_done (i + n)%nat = true).
Proof.
  revert i. induction providers as [|p providers IH]; intros i; simpl.
  - exists 0%nat. split_and!; [done|done|lia|lia].
  - destruct (ctx_done i) eqn:Hi.
    + exists 0%nat. split_and!; [done|lia|lia|].
      intros _. by rewrite Nat.add_0_r.
    + destruct (IH (S i)) as (n & Heq & Hlen & Hbefore & Hat).
      exists (S n). split_and!.
      * simpl. by rewrite Heq.
      * lia.
      * intros [|j] Hj.
        -- by rewrite Nat.add_0_r.
        -- replace (i + S j)%nat with (S i + j)%nat by lia.
           apply Hbefore. lia.
      * intros Hn. replace (i + S n)%nat with (S i + n)%nat by lia.
        apply Hat. lia.
Qed.

(** X17.  [ListProviders] returns the error of the chain node and no channel
    when the node cannot list the providers.  Otherwise the channel delivers
    the providers in the order of the node, up to the first round in which
    the context is found done, and all of them when it never is; nothing is
    delivered after that round. *)
Theorem ListProviders_delivers_prefix
    (q : @StorageClientNode_queries StorageDeal Balance)
    (ctx_done : nat → bool) :
  (∀ err, ListStorageProviders q = Err err →
     ListProviders q ctx_done = (None, Some err))
  ∧ (∀ providers, ListStorageProviders q = Ok providers →
       ∃ n : nat,
         ListProviders q ctx_done = (Some (take n providers), None)
         ∧ (n ≤ length providers)%nat
         ∧ (∀ j : nat, (j < n)%nat → ctx_done j = false)
         ∧ ((n < length providers)%nat → ctx_done n = true)
         ∧ ((∀ j, ctx_done j = false) → take n providers = providers)).
Proof.
  unfold ListProviders. split.
  - by intros err ->.
  - intros providers ->.
    destruct (send_providers_take ctx_done providers 0)
      as (n & Heq & Hlen & Hbefore & Hat).
    exists n. rewrite Heq. split_and!; [done..|].
    intros Hnever. apply take_ge.
    destruct (decide (n < length providers)%nat) as [Hlt|]; [|lia].
    apply Hat in Hlt. simpl in Hlt. congruence.
Qed.

End ClientLifeProperties.

Lemma ProposeStorageDeal_keeps_existing_records_witness :
  storageimpl.statemachines
    (storageimpl.ProposeStorageDeal client_examples.ClientEvents1
       client_examples.CommP1 client_examples.Padded1
       client_examples.AsIpld1
       (client_examples.client_with client_examples.ask_ok)
       "t0100" client_examples.info1 client_examples.data1
       10 20 5 7 1 life_examples.world_tracking).2
    !! "deal-1" = Some storageimpl.ClientDeal_zero.
Proof.
  apply (ProposeStorageDeal_keeps_existing_records
           client_examples.ClientEvents1 client_examples.CommP1
           client_examples.Padded1 client_examples.AsIpld1).
  reflexivity.
Defined.

Lemma ProposeStorageDeal_failure_leaves_streams_witness :
  let w := life_examples.world_tracking in
  let run :=
    storageimpl.ProposeStorageDeal client_examples.ClientEvents1
      client_examples.CommP1 client_examples.Padded1
      client_examples.AsIpld1 client_examples.client_no_signature
      "t0100" client_examples.info1 client_examples.data1
      10 20 5 7 1 w in
  ∃ new,
    storageimpl.calls run.2 = storageimpl.calls w ++ new
    ∧ ∀ s, storageimpl.CallStreamClose s ∉ new.
Proof.
  intros w run.
  destruct
    (ProposeStorageDeal_failure_leaves_streams
       client_examples.ClientEvents1 client_examples.CommP1
       client_examples.Padded1 client_examples.AsIpld1
       client_examples.client_no_signature
       "t0100" client_examples.info1 client_examples.data1
       10 20 5 7 1 w eq_refl)
    as (new & Hcalls & Hclose & _).
  exists new. exact (conj Hcalls Hclose).
Defined.

Lemma ProposeStorageDeal_success_record_witness :
  is_Some
    (storageimpl.statemachines
       (storageimpl.ProposeStorageDeal client_examples.ClientEvents1
          client_examples.CommP1 client_examples.Padded1
          client_examples.AsIpld1
          (client_examples.client_with client_examples.ask_ok)
          "t0100" client_examples.info1 client_examples.data1
          10 20 5 7 1 client_examples.world0).2
       !! "proposal-1").
Proof.
  destruct
    (ProposeStorageDeal_success_record
       client_examples.ClientEvents1 client_examples.CommP1
       client_examples.Padded1 client_examples.AsIpld1
       (client_examples.client_with client_examples.ask_ok)
       "t0100" client_examples.info1 client_examples.data1
       10 20 5 7 1 client_examples.world0
       {| storageimpl.res_ProposalCid := "proposal-1" |} eq_refl)
    as (dp & cdp & desc & _ & _ & _ & _ & Hrecord).
  eexists. exact Hrecord.
Defined.

Lemma ProposeStorageDeal_collateral_wraps_witness :
  ∃ dealProposal,
    market.ProviderCollateral dealProposal = 2 ^ 63 - 2 ^ 64
    ∧ market.ProviderCollateral dealProposal < 0.
Proof.
  destruct
    (ProposeStorageDeal_collateral_wraps
       client_examples.ClientEvents1 life_examples.CommP_huge
       client_examples.Padded1 client_examples.AsIpld1
       (client_examples.client_with client_examples.ask_ok)
       "t0100" client_examples.info1 client_examples.data1
       10 20 5 7 1 client_examples.world0 "commP" (2 ^ 63) eq_refl
       ltac:(lia))
    as (dp & rest & _ & Hwrap & Hneg).
  exists dp. exact (conj Hwrap Hneg).
Defined.

Lemma GetAsk_error_kinds_witness :
  let c := client_examples.client_with client_examples.ask_other_miner in
  let info := client_examples.info1 in
  let r :=
    (None : option storageimpl.SignedStorageAsk,
     Some (errors_New "got back ask for wrong miner")) in
  (storageimpl.GetAsk c info client_examples.world1).1
  = storageimpl.Returns r
  ∧ ((∃ ask, r = (Some ask, None))
     ∨ (∃ cause,
          r = (None,
               Some (errors_Wrap "failed to open stream to miner: %w" cause))
          ∧ storageimpl.NewAskStream (storageimpl.net c)
              (storageimpl.spi_PeerID info) = Err cause)
     ∨ (∃ s cause,
          storageimpl.NewAskStream (storageimpl.net c)
            (storageimpl.spi_PeerID info) = Ok s
          ∧ (r = (None,
                  Some (errors_Wrap "failed to send ask request: %w" cause))
             ∧ storageimpl.WriteAskRequest s
                 {| storageimpl.req_Miner := storageimpl.spi_Address info |}
               = Some cause
             ∨ r = (None,
                    Some (errors_Wrap "failed to read ask response: %w"
                            cause))
               ∧ storageimpl.ReadAskResponse s = Err cause))
     ∨ r = (None, Some (errors_New "got no ask back"))
     ∨ r = (None, Some (errors_New "got back ask for wrong miner"))
     ∨ r = (None, Some (errors_New "ask was not properly signed"))).
Proof.
  intros c info r. split; [reflexivity|].
  exact (GetAsk_error_kinds c info client_examples.world1 r eq_refl).
Defined.

(** The example world keeps its one stream with its one deal. *)
Lemma world_tracking_tracked :
  storageimpl.registry_tracked life_examples.world_tracking.
Proof.
  intros id; simpl. rewrite !lookup_insert_is_Some, !lookup_empty.
  intros [->|[_ [? ?]]]; [by left|done].
Qed.

Lemma ProposeStorageDeal_loses_no_stream_witness :
  let w := life_examples.world_tracking in
  let run :=
    storageimpl.ProposeStorageDeal client_examples.ClientEvents1
      client_examples.CommP1 client_examples.Padded1
      client_examples.AsIpld1
      (client_examples.client_with client_examples.ask_ok)
      "t0100" client_examples.info1 client_examples.data1
      10 20 5 7 1 w in
  storageimpl.conns run.2 !! "deal-1" = Some client_examples.stream1
  ∨ ∃ new,
      storageimpl.calls run.2 = storageimpl.calls w ++ new
      ∧ storageimpl.CallStreamClose client_examples.stream1 ∈ new.
Proof.
  intros w run.
  exact
    (ProposeStorageDeal_loses_no_stream
       client_examples.ClientEvents1 client_examples.CommP1
       client_examples.Padded1 client_examples.AsIpld1
       (client_examples.client_with client_examples.ask_ok)
       "t0100" client_examples.info1 client_examples.data1
       10 20 5 7 1 w "deal-1" client_examples.stream1
       world_tracking_tracked eq_refl).
Defined.

Lemma NewClient_registry_tracked_witness :
  storageimpl.registry_tracked
    (storageimpl.run_client_ops client_examples.ClientEvents1
       life_examples.CommP_pio client_examples.Padded1
       client_examples.AsIpld1 life_examples.new_client
       [storageimpl.DoProposeStorageDeal "t0100" client_examples.info1
          client_examples.data1 10 20 5 7 1;
        storageimpl.DoGetAsk client_examples.info1;
        storageimpl.DoCloseStream "proposal-1"]
       client_examples.world0).
Proof.
  refine
    (proj2
       (NewClient_registry_tracked (DataTransfer := unit)
          client_examples.ClientEvents1 life_examples.CommP_pio
          client_examples.Padded1 client_examples.AsIpld1
          examples.carIO1 life_examples.fsm_New_empty
          (client_examples.net_with client_examples.ask_ok) tt tt
          {| storageimpl.AddPeer := fun _ _ => None |} tt
          client_examples.node1
          life_examples.new_client client_examples.world0 _ eq_refl)).
Defined.
